(** * sitemap_extract: a shallow embedding of [sitemap_extract.py]

    The development follows the Python module function by function.
    Effects are made explicit: every function that touches the network or
    the file system is a computation over a [store] that records the
    tasks handed to the executor, the HTTP requests issued and the files
    written.  Python exceptions are a constructor of the outcome type.
    The working directory is taken to be writable; what [open] raises
    on account of the file name is modelled.
    Status lines ([print_status]) and log records ([logging]) carry no
    data that the functions read back and are left out. *)

From Stdlib Require Import ZArith List String Ascii Lia Bool.
From stdpp Require Import base gmap sets list strings.
Import ListNotations.
Open Scope string_scope.
Open Scope list_scope.

(** ** Python values and strings *)

(** An entry of the url lists is [loc.text]: a [str], or [None] for an
    empty [<loc/>] element. *)
Abbreviation pytext := (option string).

(** [f"{url}"] for such a value. *)
Definition fmt (v : pytext) : string :=
  match v with
  | Some s => s
  | None => "None"
  end.

Definition LF : string := String "010"%char EmptyString.

(** [s.split(sep)] for a one-character separator: never the empty list. *)
Fixpoint split (sep : ascii) (s : string) : list string :=
  match s with
  | EmptyString => [EmptyString]
  | String c rest =>
      if Ascii.eqb c sep then EmptyString :: split sep rest
      else match split sep rest with
           | [] => [String c EmptyString]
           | w :: ws => String c w :: ws
           end
  end.

(** [s.endswith(suffix)]. *)
Definition endswith (s suffix : string) : bool :=
  let n := String.length s in
  let k := String.length suffix in
  (k <=? n)%nat && String.eqb (substring (n - k) k s) suffix.

(** Truth value of a [str]: the empty string is falsy. *)
Definition nonempty (s : string) : bool :=
  match s with
  | EmptyString => false
  | String _ _ => true
  end.

(** ** ElementTree *)

(** An [xml.etree.ElementTree.Element]: tag (in Clark notation
    [{uri}local] when namespaced), text and children.  Attributes and
    tails are never read by the module. *)
#[warnings="-register-all"]
Inductive element : Type :=
| Element (tag : string) (text : pytext) (children : list element).

Definition tag (e : element) : string :=
  match e with Element t _ _ => t end.
Definition text (e : element) : pytext :=
  match e with Element _ x _ => x end.
Definition children (e : element) : list element :=
  match e with Element _ _ cs => cs end.

(** [elem.iter(tag)]: the element itself when it matches, then the
    children's iterations, in document order. *)
Fixpoint iter (t : string) (e : element) : list element :=
  match e with
  | Element t' _ cs =>
      (if String.eqb t' t then [e] else []) ++ flat_map (iter t) cs
  end.

(** [elem.findall('.//' + tag)]: ElementPath's descendant step yields
    every [e] of [elem.iter(tag)] with [e is not elem]. *)
Definition findall_descendants (t : string) (e : element) : list element :=
  flat_map (iter t) (children e).

(** [elem.find(tag)]: the first direct child with that tag. *)
Definition find_child (t : string) (e : element) : option element :=
  List.find (fun c => String.eqb (tag c) t) (children e).

(** [namespace = {'sm': ...}]; a prefixed name [sm:x] resolves to
    [{uri}x]. *)
Definition namespace : string := "http://www.sitemaps.org/schemas/sitemap/0.9".
Definition sm (local : string) : string := "{" +:+ namespace +:+ "}" +:+ local.

(** The two [for] loops of [process_sitemap]: for each matching entry,
    append [loc.text] when the entry has a [sm:loc] child. *)
Definition loc_texts (entries : list element) : list pytext :=
  flat_map (fun entry =>
              match find_child (sm "loc") entry with
              | Some loc => [text loc]
              | None => []
              end) entries.

(** [not root] for the value the fetch functions return.  [None] is
    falsy, and so is an [Element] without children: its truth value is
    that of [len(element)]. *)
Definition falsy (root : option element) : bool :=
  match root with
  | None => true
  | Some e => match children e with [] => true | _ :: _ => false end
  end.

(** ** The outside world *)

(** What a response body is to the two decoders the module applies:
    [ET.fromstring] accepts exactly the [Xml] bodies, [gzip.open(..).read()]
    exactly the [Gzip] ones. *)
Inductive payload : Type :=
| Xml (root : element)
| Gzip (inner : payload)
| Junk.

(** What [scraper.get(url)] does: raise (no connection), or return a
    response with a status code and a body. *)
Inductive reply : Type :=
| Unreachable
| Response (status_code : Z) (content : payload).

Inductive exn : Type :=
| ConnectionError
| ParseError
| BadGzipFile
| AttributeError
| OSError
| ValueError.

(** ** Computations *)

Record request : Type := { req_url : string; req_stream : bool }.

Record store : Type := {
  submitted : list (string * bool);  (* executor.submit(process_sitemap, url, is_compressed) *)
  requests : list request;           (* scraper.get calls, oldest first *)
  written : list (string * string)   (* open(filename, 'w') and what was written, oldest first *)
}.

Definition empty_store : store :=
  {| submitted := []; requests := []; written := [] |}.

Inductive outcome (A : Type) : Type :=
| Return (a : A)
| Raise (e : exn)
| OutOfFuel.
Arguments Return {A} a.
Arguments Raise {A} e.
Arguments OutOfFuel {A}.

Definition M (A : Type) : Type := store -> outcome A * store.

Definition ret {A} (a : A) : M A := fun s => (Return a, s).
Definition raise {A} (e : exn) : M A := fun s => (Raise e, s).
Definition bind {A B} (m : M A) (k : A -> M B) : M B :=
  fun s =>
    match m s with
    | (Return a, s') => k a s'
    | (Raise e, s') => (Raise e, s')
    | (OutOfFuel, s') => (OutOfFuel, s')
    end.

#[global] Instance M_ret : MRet M := @ret.
#[global] Instance M_bind : MBind M := fun A B k m => bind m k.

Definition log_submit (url : string) (is_compressed : bool) : M unit :=
  fun s => (Return tt,
            {| submitted := submitted s ++ [(url, is_compressed)];
               requests := requests s;
               written := written s |}).

Definition log_request (url : string) (stream : bool) : M unit :=
  fun s => (Return tt,
            {| submitted := submitted s;
               requests := requests s ++ [{| req_url := url; req_stream := stream |}];
               written := written s |}).

(** The bytes of a name in the file system encoding (UTF-8): a code
    point below 128 takes one byte, the others below 256 take two. *)
Fixpoint utf8_length (s : string) : nat :=
  match s with
  | EmptyString => O
  | String c rest =>
      (if (nat_of_ascii c <? 128)%nat then 1 else 2) + utf8_length rest
  end.

Fixpoint has_nul (s : string) : bool :=
  match s with
  | EmptyString => false
  | String c rest => Ascii.eqb c "000"%char || has_nul rest
  end.

(** What [open(filename, 'w')] raises in a writable working directory
    for a name without a slash: [ValueError] for an embedded null
    character, [OSError] for a name of more than 255 bytes. *)
Definition open_error (filename : string) : option exn :=
  if has_nul filename then Some ValueError
  else if (255 <? utf8_length filename)%nat then Some OSError
  else None.

(** [with open(filename, 'w') as f:] and the writes to [f] that make up
    [data].  When [open] raises, no file is created. *)
Definition write_file (filename data : string) : M unit :=
  fun s =>
    match open_error filename with
    | Some e => (Raise e, s)
    | None => (Return tt,
               {| submitted := submitted s;
                  requests := requests s;
                  written := written s ++ [(filename, data)] |})
    end.

Definition fromstring (body : payload) : M element :=
  match body with
  | Xml root => ret root
  | _ => raise ParseError
  end.

Definition gzip_read (body : payload) : M payload :=
  match body with
  | Gzip inner => ret inner
  | _ => raise BadGzipFile
  end.

(** ** The module's functions *)

(** The [for url in urls: f.write(f"{url}\n")] loop of [save_urls]. *)
Fixpoint url_lines (urls : list pytext) : string :=
  match urls with
  | [] => ""
  | url :: urls => fmt url +:+ LF +:+ url_lines urls
  end.

(** The two assignments to [filename] in [save_urls]. *)
Definition output_filename (url : string) : string :=
  let filename := List.hd "" (split "." (List.last (split "/" url) "")) in
  if nonempty filename then filename +:+ ".txt" else "sitemap_urls.txt".

Arguments open_error : simpl never.
Arguments output_filename : simpl never.

Definition save_urls (url : string) (urls : list pytext) : M unit :=
  write_file (output_filename url)
             ("Source URL: " +:+ url +:+ LF +:+ url_lines urls).

Section World.

(** The server side: what a GET of each url produces, the same at every
    request.  The client built by [create_scraper] and the user agent
    drawn by [random.choice] have no part in what the functions below
    compute from the reply. *)
Variable http : string -> reply.

Definition scraper_get (url : string) (stream : bool) : M (Z * payload) :=
  _ ← log_request url stream;
  match http url with
  | Unreachable => raise ConnectionError
  | Response status_code content => ret (status_code, content)
  end.

Definition fetch_xml (url : string) : M (option element) :=
  '(status_code, content) ← scraper_get url false;
  if (status_code =? 200)%Z then
    root ← fromstring content;
    ret (Some root)
  else ret None.

Definition decompress_gz (url : string) : M (option element) :=
  '(status_code, raw) ← scraper_get url true;
  if (status_code =? 200)%Z then
    data ← gzip_read raw;
    root ← fromstring data;
    ret (Some root)
  else ret None.

Definition process_sitemap (url : string) (is_compressed : bool)
  : M (list pytext * list pytext) :=
  root ← (if is_compressed then decompress_gz url else fetch_xml url);
  if falsy root then ret ([], [])
  else
    match root with
    | None => ret ([], [])  (* not reached: None is falsy *)
    | Some root =>
        let sitemap_urls := loc_texts (findall_descendants (sm "sitemap") root) in
        let page_urls := loc_texts (findall_descendants (sm "url") root) in
        _ ← save_urls url page_urls;
        ret (sitemap_urls, page_urls)
    end.

(** [executor.submit(process_sitemap, current_url,
    current_url.endswith('.xml.gz'), ...)] followed at once by
    [future.result()]: the task runs to completion before the loop goes
    on, and an exception of the task is raised again by [result()].
    [None.endswith] is an [AttributeError]. *)
Definition submit_and_wait (current_url : pytext)
  : M (list pytext * list pytext) :=
  match current_url with
  | None => raise AttributeError
  | Some url =>
      let is_compressed := endswith url ".xml.gz" in
      _ ← log_submit url is_compressed;
      process_sitemap url is_compressed
  end.

(** The [while queue:] loop.  [fuel] bounds the number of iterations;
    an empty queue ends the loop whatever fuel is left.  The counters
    [processed_count] and [total_sitemaps] are only printed and are not
    carried along. *)
Fixpoint while_queue (fuel : nat) (queue : list pytext)
         (all_sitemap_urls all_page_urls : gset pytext)
  : M (gset pytext * gset pytext) :=
  match queue with
  | [] => ret (all_sitemap_urls, all_page_urls)
  | current_url :: queue =>
      match fuel with
      | O => fun s => (OutOfFuel, s)
      | S fuel =>
          '(sitemap_urls, page_urls) ← submit_and_wait current_url;
          let new_sitemaps :=
            filter (fun url => url ∉ all_sitemap_urls) sitemap_urls in
          while_queue fuel (queue ++ new_sitemaps)
                      (all_sitemap_urls ∪ list_to_set sitemap_urls)
                      (all_page_urls ∪ list_to_set page_urls)
      end
  end.

(** [queue = start_urls[:]] is a fresh list, and both sets start empty.
    A Python [set] is iterated in an order the language leaves open;
    [elements] fixes one for the aggregate file. *)
Definition process_all_sitemaps (fuel : nat) (start_urls : list string)
  : M (gset pytext * gset pytext) :=
  '(all_sitemap_urls, all_page_urls) ← while_queue fuel (map Some start_urls) ∅ ∅;
  _ ← save_urls "sitemap_index" (elements all_sitemap_urls);
  ret (all_sitemap_urls, all_page_urls).

End World.

(** * Specification-side definitions *)

(** The character [c] does not occur in [s]. *)
Fixpoint free_of (c : ascii) (s : string) : Prop :=
  match s with
  | EmptyString => True
  | String a rest => a <> c /\ free_of c rest
  end.

(** [seg] is the last path segment of [url]: what follows the last slash,
    or all of [url] when it has none. *)
Definition last_segment (url seg : string) : Prop :=
  free_of "/" seg /\ (url = seg \/ exists dir, url = dir +:+ "/" +:+ seg).

(** [stem] is [seg] without its extension: what precedes the first dot,
    or all of [seg] when it has none. *)
Definition without_extension (seg stem : string) : Prop :=
  free_of "." stem /\ (seg = stem \/ exists ext, seg = stem +:+ "." +:+ ext).

(** A text file given by its lines, each ended by a line feed. *)
Fixpoint unlines (ls : list string) : string :=
  match ls with
  | [] => ""
  | l :: ls => l +:+ LF +:+ unlines ls
  end.

(** The elements below [e] in document order: an element comes before
    its own children, and both come before its later siblings. *)
Fixpoint descendants (e : element) : list element :=
  match e with
  | Element _ _ cs => flat_map (fun c => c :: descendants c) cs
  end.

(** The locations of the entries of one kind ([sitemap] or [url]) as the
    specification describes them: every [sm:kind] element below the root,
    in document order, contributes the text of its first [sm:loc] child,
    repeated as often as it occurs. *)
Definition locations_in_document_order (kind : string) (root : element)
  : list pytext :=
  flat_map (fun d =>
              if String.eqb (tag d) (sm kind) then
                match find_child (sm "loc") d with
                | Some loc => [text loc]
                | None => []
                end
              else [])
           (descendants root).

(** [<sm:kind><sm:loc>u</sm:loc></sm:kind>] *)
Definition loc_entry (kind : string) (u : pytext) : element :=
  Element (sm kind) None [Element (sm "loc") u []].

(** A sitemap index listing [us], and a urlset listing [ps]. *)
Definition sitemapindex_of (us : list pytext) : element :=
  Element (sm "sitemapindex") None (map (loc_entry "sitemap") us).
Definition urlset_of (ps : list pytext) : element :=
  Element (sm "urlset") None (map (loc_entry "url") ps).

(** The body a server sends for the document [root], plain or gzipped. *)
Definition body_of (is_compressed : bool) (root : element) : payload :=
  if is_compressed then Gzip (Xml root) else Xml root.

(** What the engine's fetch of [url] comes back with when nothing is
    raised: [None] for a status other than 200, the parsed root for a
    200 whose body is the document in the encoding the url's suffix
    announces. *)
Inductive served (http : string -> reply) (url : string)
  : option element -> Prop :=
| served_status (code : Z) (body : payload) :
    http url = Response code body -> code <> 200%Z ->
    served http url None
| served_document (root : element) :
    http url = Response 200 (body_of (endswith url ".xml.gz") root) ->
    served http url (Some root).

Definition child_sitemaps (root : option element) : list pytext :=
  match root with
  | Some e => loc_texts (findall_descendants (sm "sitemap") e)
  | None => []
  end.

Definition page_locations (root : option element) : list pytext :=
  match root with
  | Some e => loc_texts (findall_descendants (sm "url") e)
  | None => []
  end.

(** Every url of [universe] is served, and the child sitemaps of its
    document are urls of [universe] again. *)
Definition closed_world (http : string -> reply) (universe : list string)
  : Prop :=
  forall url, In url universe ->
    exists root, served http url root /\
      forall k, In k (child_sitemaps root) ->
        exists u, k = Some u /\ In u universe.

(** The aggregate file written at the end of a run. *)
Definition aggregate (all_sitemap_urls : gset pytext) : string * string :=
  ("sitemap_index.txt",
   unlines ("Source URL: sitemap_index" :: map fmt (elements all_sitemap_urls))).

(** The store after [scraper.get(url, stream=...)]. *)
Definition requested (url : string) (stream : bool) (s : store) : store :=
  snd (log_request url stream s).

(** The store after [save_urls url urls]. *)
Definition saved (url : string) (urls : list pytext) (s : store) : store :=
  snd (save_urls url urls s).

(** A computation only appends to the three logs of the store. *)
Definition extends (s s' : store) : Prop :=
  (exists l, submitted s' = submitted s ++ l) /\
  (exists l, requests s' = requests s ++ l) /\
  (exists l, written s' = written s ++ l).

(** The file [save_urls url urls] leaves behind when [open] lets it:
    its name and its text. *)
Definition per_source_file (url : string) (urls : list pytext)
  : string * string :=
  (output_filename url,
   unlines (("Source URL: " +:+ url) :: map fmt urls)).

(** [open] accepts the name of the file of [url]. *)
Definition opens (url : string) : Prop :=
  open_error (output_filename url) = None.

(** Every task submitted and every request issued so far took the route
    the suffix of its url selects. *)
Definition routed (s : store) : Prop :=
  Forall (fun task => snd task = endswith (fst task) ".xml.gz") (submitted s) /\
  Forall (fun r => req_stream r = endswith (req_url r) ".xml.gz") (requests s).

(** The urls of a run as members of the dedup set. *)
Definition as_set (universe : list string) : gset pytext :=
  list_to_set (map Some universe).

(** The computation returned a value, and the value satisfies [Q]. *)
Definition returns {A} (r : outcome A) (Q : A -> Prop) : Prop :=
  match r with
  | Return a => Q a
  | _ => False
  end.

(** The computation came to an end within its fuel. *)
Definition ended {A} (r : outcome A) : bool :=
  match r with
  | OutOfFuel => false
  | _ => true
  end.

(** ** Example sites *)

(** A site given by a table; any other url is a 404. *)
Fixpoint site (table : list (string * reply)) (url : string) : reply :=
  match table with
  | [] => Response 404 Junk
  | (u, r) :: table => if String.eqb u url then r else site table url
  end.

Definition ok (root : element) : reply := Response 200 (Xml root).

(** The end-to-end example: an index with two sitemaps sharing a page. *)
Definition example_site : string -> reply :=
  site [("https://example.com/sitemap_index.xml",
         ok (sitemapindex_of [Some "https://example.com/sitemap1.xml";
                              Some "https://example.com/sitemap2.xml"]));
        ("https://example.com/sitemap1.xml",
         ok (urlset_of [Some "https://example.com/a"; Some "https://example.com/b"]));
        ("https://example.com/sitemap2.xml",
         ok (urlset_of [Some "https://example.com/b"; Some "https://example.com/c"]))].

Definition example_universe : list string :=
  ["https://example.com/sitemap_index.xml";
   "https://example.com/sitemap1.xml";
   "https://example.com/sitemap2.xml"].

(** An index that lists the same child twice. *)
Definition twice_listed_site : string -> reply :=
  site [("https://example.com/index.xml",
         ok (sitemapindex_of [Some "https://example.com/pages.xml";
                              Some "https://example.com/pages.xml"]));
        ("https://example.com/pages.xml",
         ok (urlset_of [Some "https://example.com/a"]))].

(** An index that lists itself next to its child. *)
Definition self_listed_site : string -> reply :=
  site [("https://example.com/index.xml",
         ok (sitemapindex_of [Some "https://example.com/index.xml";
                              Some "https://example.com/pages.xml"]));
        ("https://example.com/pages.xml",
         ok (urlset_of [Some "https://example.com/a"]))].

(** Three sibling sitemaps; the middle one is answered by [broken]. *)
Definition siblings : list string :=
  ["https://example.com/one.xml"; "https://example.com/two.xml";
   "https://example.com/three.xml"].
Definition siblings_gz : list string :=
  ["https://example.com/one.xml"; "https://example.com/two.xml.gz";
   "https://example.com/three.xml"].
Definition sibling_site (middle : string) (broken : reply) : string -> reply :=
  site [("https://example.com/one.xml", ok (urlset_of [Some "https://example.com/1"]));
        (middle, broken);
        ("https://example.com/three.xml", ok (urlset_of [Some "https://example.com/3"]))].

(** A urlset without entries, and a sitemap served under a directory url. *)
Definition empty_urlset_site : string -> reply :=
  site [("https://example.com/sitemap.xml", ok (urlset_of []))].
Definition directory_site : string -> reply :=
  site [("https://example.com/sitemaps/", ok (urlset_of [Some "https://example.com/a"]))].


(** A sitemap whose stem has 252 characters, so that its file name has
    256, with a urlset of one page; and three siblings with it in the
    middle. *)
Fixpoint repeat_char (c : ascii) (n : nat) : string :=
  match n with
  | O => EmptyString
  | S n => String c (repeat_char c n)
  end.

Definition long_url : string :=
  "https://example.com/" +:+ repeat_char "a" 252 +:+ ".xml".

Definition long_name_site : string -> reply :=
  site [(long_url, ok (urlset_of [Some "https://example.com/a"]))].

Definition siblings_long : list string :=
  ["https://example.com/one.xml"; long_url; "https://example.com/three.xml"].

(** * More of the module *)

(** ** Text files

    From here on a [string] also stands for the text of a file: a Python
    [str] whose code points are below 256. *)

Definition CR : ascii := "013"%char.
Definition NL : ascii := "010"%char.

(** [c.isspace()]: the code points 9 to 13, 28 to 32, 133 and 160. *)
Definition isspace (c : ascii) : bool :=
  let n := nat_of_ascii c in
  ((9 <=? n)%nat && (n <=? 13)%nat) || ((28 <=? n)%nat && (n <=? 32)%nat)
  || (n =? 133)%nat || (n =? 160)%nat.

(** [s.lstrip()], [s.rstrip()] and [s.strip()] without argument. *)
Fixpoint lstrip (s : string) : string :=
  match s with
  | EmptyString => EmptyString
  | String c rest => if isspace c then lstrip rest else s
  end.

Fixpoint rstrip (s : string) : string :=
  match s with
  | EmptyString => EmptyString
  | String c rest =>
      match rstrip rest with
      | EmptyString => if isspace c then EmptyString else String c EmptyString
      | kept => String c kept
      end
  end.

Definition strip (s : string) : string := rstrip (lstrip s).

(** What the text layer of [open(path, 'r')] does to line ends
    (universal newlines): [\r\n] and a lone [\r] are read as [\n]. *)
Fixpoint translate_newlines (s : string) : string :=
  match s with
  | EmptyString => EmptyString
  | String c rest =>
      if Ascii.eqb c CR then
        match rest with
        | String c' rest' =>
            if Ascii.eqb c' NL then String NL (translate_newlines rest')
            else String NL (translate_newlines rest)
        | EmptyString => String NL EmptyString
        end
      else String c (translate_newlines rest)
  end.

(** [for line in file]: the lines of the text, each with its line feed;
    the last one has none when the text does not end in one. *)
Fixpoint file_lines (s : string) : list string :=
  match s with
  | EmptyString => []
  | String c rest =>
      if Ascii.eqb c NL then String NL EmptyString :: file_lines rest
      else match file_lines rest with
           | [] => [String c EmptyString]
           | line :: lines => String c line :: lines
           end
  end.

(** [[line.strip() for line in file if line.strip()]] *)
Definition stripped_lines (data : string) : list string :=
  flat_map (fun line => if nonempty (strip line) then [strip line] else [])
           (file_lines (translate_newlines data)).

(** The text of the file [name] after the writes of a log: every
    [open(name, 'w')] truncates, so the last write stands. *)
Fixpoint file_text (log : list (string * string)) (name : string)
  : option string :=
  match log with
  | [] => None
  | (n, data) :: log =>
      match file_text log name with
      | Some later => Some later
      | None => if String.eqb n name then Some data else None
      end
  end.

(** [os.path.join(a, b)] on a POSIX system. *)
Definition path_join (a b : string) : string :=
  match b with
  | String "/" _ => b
  | _ => if nonempty a && negb (endswith a "/") then a +:+ "/" +:+ b
         else a +:+ b
  end.

(** The namespace [argparse] hands to the script; an option that was not
    given is [None]. *)
Record args : Type := {
  args_url : option string;
  args_file : option string;
  args_directory : option string;
  args_no_cloudscraper : bool;
  args_proxy : bool
}.

(** [if args.x:] for an optional string: given and not empty. *)
Definition given (a : option string) : option string :=
  match a with
  | Some s => if nonempty s then Some s else None
  | None => None
  end.

(** How the script ends. *)
Inductive script_outcome : Type :=
| NoUrls                    (* "Error: No URLs provided to process" *)
| CannotOpen                (* open(args.file) raised *)
| Completed (result : outcome (gset pytext * gset pytext)).

Section Script.

(** The text of the files that can be opened for reading, [glob.glob],
    and the server. *)
Variable fs : string -> option string.
Variable glob : string -> list string.
Variable http : string -> reply.

Definition read_urls_from_file (file_path : string) : option (list string) :=
  match fs file_path with
  | None => None
  | Some data => Some (stripped_lines data)
  end.

Definition find_xml_files_in_directory (directory : string) : list string :=
  glob (path_join directory "*.xml") ++ glob (path_join directory "*.xml.gz").

(** The three [if] blocks of the script that fill [urls_to_process]:
    [None] when the url file cannot be opened. *)
Definition urls_to_process (a : args) : option (list string) :=
  let from_url := match given (args_url a) with
                  | Some url => [url]
                  | None => []
                  end in
  match (match given (args_file a) with
         | Some file => read_urls_from_file file
         | None => Some []
         end) with
  | None => None
  | Some from_file =>
      let from_directory := match given (args_directory a) with
                            | Some directory => find_xml_files_in_directory directory
                            | None => []
                            end in
      Some (from_url ++ from_file ++ from_directory)
  end.

(** The [if __name__ == "__main__":] block. *)
Definition main (fuel : nat) (a : args) (s : store) : script_outcome * store :=
  match urls_to_process a with
  | None => (CannotOpen, s)
  | Some [] => (NoUrls, s)
  | Some urls =>
      let '(result, s') := process_all_sitemaps http fuel urls s in
      (Completed result, s')
  end.

End Script.

(** ** Further specification-side definitions *)

(** The two lists a task for [url] returns, or the exception it raises. *)
Definition task_lists (http : string -> reply) (url : string)
  : outcome (list pytext * list pytext) :=
  fst (process_sitemap http url (endswith url ".xml.gz") empty_store).

(** A line that reads back as it was written: not empty, no white space
    at either end, no line break inside. *)
Definition clean (line : string) : Prop :=
  nonempty line = true /\ strip line = line /\
  free_of NL line /\ free_of CR line.

(** The value a returned run carries. *)
Definition returned {A} (default : A) (r : outcome A) : A :=
  match r with
  | Return a => a
  | _ => default
  end.

Definition is_return {A} (r : outcome A) : bool :=
  match r with
  | Return _ => true
  | _ => false
  end.

(** How a line of a text file ends: Unix, Windows or old Mac style. *)
Inductive line_end : Type := Unix | Windows | OldMac.

Definition break_of (e : line_end) : string :=
  match e with
  | Unix => String NL EmptyString
  | Windows => String CR (String NL EmptyString)
  | OldMac => String CR EmptyString
  end.

(** The text of a file given by its lines and their ends. *)
Fixpoint text_of (lines : list (string * line_end)) : string :=
  match lines with
  | [] => EmptyString
  | (line, e) :: lines => line +:+ break_of e +:+ text_of lines
  end.

(** Lines stripped, the blank ones left out. *)
Definition kept_lines (lines : list string) : list string :=
  flat_map (fun line => if nonempty (strip line) then [strip line] else [])
           lines.

(** No white space at the start. *)
Definition starts_clean (s : string) : Prop :=
  match s with
  | EmptyString => True
  | String c _ => isspace c = false
  end.


(** ** Further examples *)

(** An index whose first entry has an empty [loc]. *)
Definition empty_loc_site : string -> reply :=
  site [("https://example.com/index.xml",
         ok (sitemapindex_of [None; Some "https://example.com/pages.xml"]));
        ("https://example.com/pages.xml",
         ok (urlset_of [Some "https://example.com/a"]))].

(** A gzipped sitemap served under a plain name. *)
Definition misnamed_site : string -> reply :=
  site [("https://example.com/sitemap.xml",
         Response 200 (Gzip (Xml (urlset_of [Some "https://example.com/a"]))))].

(** A url file with blank lines, padding and mixed line ends. *)
Definition example_url_file : string :=
  "  https://example.com/a.xml " +:+ String CR (String NL EmptyString) +:+
  String NL EmptyString +:+
  "https://example.com/b.xml.gz" +:+ String CR EmptyString +:+
  String "009" EmptyString +:+ String NL EmptyString +:+
  "https://example.com/c.xml".

Definition example_fs (path : string) : option string :=
  if String.eqb path "urls.txt" then Some example_url_file else None.

Definition example_glob (pattern : string) : list string :=
  if String.eqb pattern "maps/*.xml" then ["maps/a.xml"; "maps/b.xml"]
  else if String.eqb pattern "maps/*.xml.gz" then ["maps/c.xml.gz"]
  else [].

(** A server on which every sitemap lists one more, a path segment
    deeper: the index at [url] has the single child [url/s]. *)
Definition deepening_site (url : string) : reply :=
  Response 200 (body_of (endswith url ".xml.gz")
                        (sitemapindex_of [Some (url +:+ "/s")])).

Definition example_args : args :=
  {| args_url := Some "https://example.com/sitemap_index.xml";
     args_file := Some "urls.txt";
     args_directory := None;
     args_no_cloudscraper := false;
     args_proxy := false |}.

(** The example site, with an empty urlset under every other name. *)
Definition open_site (url : string) : reply :=
  match example_site url with
  | Response 200 body => Response 200 body
  | _ => Response 200 (body_of (endswith url ".xml.gz") (urlset_of []))
  end.
(** * Properties *)

(** ** Strings *)

Lemma append_nil (b : string) : "" +:+ b = b.
Proof. reflexivity. Qed.

Lemma append_cons (c : ascii) (a b : string) :
  String c a +:+ b = String c (a +:+ b).
Proof. reflexivity. Qed.

Ltac simpl_append := rewrite ?append_cons, ?append_nil.

Lemma substring_all (s : string) : substring 0 (String.length s) s = s.
Proof. induction s as [|c s IH]; simpl; [reflexivity | now rewrite IH]. Qed.

Lemma substring_skip (p s : string) (k : nat) :
  substring (String.length p) k (p +:+ s) = substring 0 k s.
Proof. induction p as [|c p IH]; simpl_append; simpl; [reflexivity | exact IH]. Qed.

Lemma substring_cut (s : string) (i : nat) :
  (i <= String.length s)%nat ->
  s = substring 0 i s +:+ substring i (String.length s - i) s.
Proof.
  revert i. induction s as [|c s IH]; intros [|i] Hi; simpl in *;
    simpl_append; try lia.
  - reflexivity.
  - now rewrite substring_all.
  - f_equal. apply IH. lia.
Qed.

Lemma length_append (a b : string) :
  String.length (a +:+ b) = (String.length a + String.length b)%nat.
Proof.
  induction a as [|c a IH]; simpl_append; simpl; [reflexivity | now rewrite IH].
Qed.

(** [endswith] is the suffix test. *)
Lemma endswith_spec (s suffix : string) :
  endswith s suffix = true <-> exists p, s = p +:+ suffix.
Proof.
  unfold endswith. split.
  - intros H. apply andb_true_iff in H as [Hle Heq].
    apply Nat.leb_le in Hle. apply String.eqb_eq in Heq.
    exists (substring 0 (String.length s - String.length suffix) s).
    pose proof (substring_cut s (String.length s - String.length suffix)) as Hcut.
    replace (String.length s - (String.length s - String.length suffix))%nat
      with (String.length suffix) in Hcut by lia.
    rewrite Heq in Hcut. apply Hcut. lia.
  - intros [p ->]. rewrite length_append. apply andb_true_iff. split.
    + apply Nat.leb_le. lia.
    + replace (String.length p + String.length suffix - String.length suffix)%nat
        with (String.length p) by lia.
      rewrite substring_skip, substring_all. apply String.eqb_refl.
Qed.

Lemma split_nonempty (sep : ascii) (s : string) : split sep s <> [].
Proof.
  induction s as [|c s IH]; simpl; [discriminate |].
  destruct (Ascii.eqb c sep); [discriminate |].
  destruct (split sep s); [contradiction | discriminate].
Qed.

Lemma split_free (sep : ascii) (s : string) :
  free_of sep s -> split sep s = [s].
Proof.
  induction s as [|c s IH]; simpl; [reflexivity |].
  intros [Hc Hs]. apply Ascii.eqb_neq in Hc. rewrite Hc, (IH Hs). reflexivity.
Qed.

(** The first piece is what precedes the first separator. *)
Lemma split_head (sep : ascii) (a b : string) :
  free_of sep a ->
  List.hd "" (split sep (a +:+ String sep b)) = a.
Proof.
  induction a as [|c a IH]; simpl_append; simpl.
  - intros _. now rewrite Ascii.eqb_refl.
  - intros [Hc Ha]. apply Ascii.eqb_neq in Hc. rewrite Hc.
    specialize (IH Ha).
    destruct (split sep (a +:+ String sep b)) as [|w ws] eqn:E; simpl in *.
    + now apply split_nonempty in E.
    + now rewrite IH.
Qed.

Lemma split_tail (sep : ascii) (a b : string) :
  free_of sep b ->
  exists w ws, split sep (a +:+ String sep b) = w :: ws /\
               ws <> [] /\ List.last ws "" = b.
Proof.
  intros Hb. induction a as [|c a (w & ws & E & Hne & Hl)]; simpl_append; simpl.
  - rewrite Ascii.eqb_refl, (split_free _ _ Hb).
    exists "", [b]. repeat split. discriminate.
  - rewrite E. destruct (Ascii.eqb c sep).
    + exists "", (w :: ws). repeat split; [discriminate |].
      destruct ws; [contradiction | exact Hl].
    + exists (String c w), ws. repeat split; assumption.
Qed.

(** The last piece is what follows the last separator. *)
Lemma split_last (sep : ascii) (a b : string) :
  free_of sep b ->
  List.last (split sep (a +:+ String sep b)) "" = b.
Proof.
  intros Hb. destruct (split_tail sep a b Hb) as (w & ws & -> & Hne & Hl).
  destruct ws; [contradiction | exact Hl].
Qed.

Lemma append_empty_r (a : string) : a +:+ "" = a.
Proof. induction a as [|c a IH]; simpl_append; [reflexivity | now rewrite IH]. Qed.

Lemma append_assoc (a b c : string) : (a +:+ b) +:+ c = a +:+ (b +:+ c).
Proof.
  induction a as [|x a IH]; simpl_append; [reflexivity | now rewrite IH].
Qed.

Lemma last_segment_split (url seg : string) :
  last_segment url seg -> List.last (split "/" url) "" = seg.
Proof.
  intros [Hfree [-> | [dir ->]]].
  - now rewrite split_free.
  - now apply split_last.
Qed.

Lemma without_extension_split (seg stem : string) :
  without_extension seg stem -> List.hd "" (split "." seg) = stem.
Proof.
  intros [Hfree [-> | [ext ->]]].
  - now rewrite split_free.
  - now apply split_head.
Qed.

(** ** Elements and document order *)

(** Induction on an element with the hypothesis for all its children. *)
Lemma element_nested_ind (P : element -> Prop) :
  (forall t x cs, Forall P cs -> P (Element t x cs)) ->
  forall e, P e.
Proof.
  intros step. fix self 1. intros [t x cs]. apply step.
  induction cs as [|c cs IH]; constructor; [apply self | exact IH].
Qed.

Lemma flat_map_filter {A B} (f : A -> bool) (g : A -> list B) (l : list A) :
  flat_map g (List.filter f l) = flat_map (fun a => if f a then g a else []) l.
Proof.
  induction l as [|a l IH]; simpl; [reflexivity |].
  destruct (f a); simpl; now rewrite IH.
Qed.

(** [iter] walks the element and its descendants in document order and
    keeps those with the tag. *)
Lemma iter_document_order (t : string) (e : element) :
  iter t e = List.filter (fun d => String.eqb (tag d) t) (e :: descendants e).
Proof.
  induction e as [t' x cs IH] using element_nested_ind.
  cbn [iter descendants List.filter tag].
  assert (Hcs : flat_map (iter t) cs =
                List.filter (fun d => String.eqb (tag d) t)
                            (flat_map (fun c => c :: descendants c) cs)).
  { induction IH as [|c cs Hc _ IHcs]; [reflexivity |].
    cbn [flat_map]. rewrite List.filter_app, Hc, IHcs. reflexivity. }
  rewrite Hcs. destruct (String.eqb t' t); reflexivity.
Qed.

Lemma findall_document_order (t : string) (e : element) :
  findall_descendants t e =
  List.filter (fun d => String.eqb (tag d) t) (descendants e).
Proof.
  destruct e as [t' x cs]. unfold findall_descendants. cbn [children descendants].
  induction cs as [|c cs IH]; [reflexivity |].
  cbn [flat_map]. rewrite List.filter_app, IH, iter_document_order. reflexivity.
Qed.

(** The module's two extraction loops compute the locations of the
    specification. *)
Lemma loc_texts_document_order (kind : string) (e : element) :
  loc_texts (findall_descendants (sm kind) e) = locations_in_document_order kind e.
Proof.
  unfold loc_texts, locations_in_document_order.
  rewrite findall_document_order. apply flat_map_filter.
Qed.

Lemma descendants_app (t : string) (x : pytext) (cs1 cs2 : list element) :
  descendants (Element t x (cs1 ++ cs2)) =
  descendants (Element t x cs1) ++ descendants (Element t x cs2).
Proof. cbn [descendants]. apply flat_map_app. Qed.

(** Earlier children contribute before later ones. *)
Lemma locations_app (kind t : string) (x : pytext) (cs1 cs2 : list element) :
  locations_in_document_order kind (Element t x (cs1 ++ cs2)) =
  locations_in_document_order kind (Element t x cs1) ++
  locations_in_document_order kind (Element t x cs2).
Proof.
  unfold locations_in_document_order. rewrite descendants_app.
  apply flat_map_app.
Qed.

(** A flat index yields its list as it stands, repetitions included, and
    no pages; a flat urlset the other way round. *)
Lemma locations_sitemapindex (us : list pytext) :
  locations_in_document_order "sitemap" (sitemapindex_of us) = us /\
  locations_in_document_order "url" (sitemapindex_of us) = [].
Proof.
  unfold sitemapindex_of, locations_in_document_order. cbn [descendants].
  induction us as [|u us [IH1 IH2]]; [split; reflexivity |].
  cbn [map flat_map]. rewrite !flat_map_app, IH1, IH2.
  split; vm_compute; reflexivity.
Qed.

Lemma locations_urlset (ps : list pytext) :
  locations_in_document_order "sitemap" (urlset_of ps) = [] /\
  locations_in_document_order "url" (urlset_of ps) = ps.
Proof.
  unfold urlset_of, locations_in_document_order. cbn [descendants].
  induction ps as [|p ps [IH1 IH2]]; [split; reflexivity |].
  cbn [map flat_map]. rewrite !flat_map_app, IH1, IH2.
  split; vm_compute; reflexivity.
Qed.

(** ** One task *)

Ltac unfold_M :=
  unfold mbind, M_bind, mret, M_ret, bind, ret, raise,
    log_request, log_submit, write_file in *.

Lemma falsy_Some (e : element) :
  falsy (Some e) = match children e with [] => true | _ :: _ => false end.
Proof. reflexivity. Qed.

Lemma findall_childless (t : string) (e : element) :
  children e = [] -> findall_descendants t e = [].
Proof. unfold findall_descendants. now intros ->. Qed.

(** [save_urls] either raises what [open] raises, leaving no file, or
    appends its one file. *)
Lemma save_urls_cases (url : string) (urls : list pytext) (s : store) :
  save_urls url urls s =
  match open_error (output_filename url) with
  | Some e => (Raise e, s)
  | None => (Return tt, saved url urls s)
  end.
Proof.
  unfold saved, save_urls, write_file.
  destruct (open_error (output_filename url)); reflexivity.
Qed.

Lemma save_urls_returns (url : string) (urls : list pytext) (s : store) :
  opens url -> save_urls url urls s = (Return tt, saved url urls s).
Proof. intros H. rewrite save_urls_cases. unfold opens in H. now rewrite H. Qed.

Ltac run_fetch :=
  unfold process_sitemap, fetch_xml, decompress_gz, scraper_get,
    mbind, M_bind, mret, M_ret, bind, ret, raise, log_request, log_submit,
    fromstring, gzip_read in *.

(** A status other than 200: two empty lists, nothing saved. *)
Lemma process_sitemap_status http url c code body s :
  http url = Response code body -> code <> 200%Z ->
  process_sitemap http url c s = (Return ([], []), requested url c s).
Proof.
  intros Hr Hc. apply Z.eqb_neq in Hc.
  run_fetch. destruct c; cbn; rewrite Hr, Hc; reflexivity.
Qed.

(** A 200 with a document in the expected encoding is fetched. *)
Lemma fetch_document http url c root s :
  http url = Response 200 (body_of c root) ->
  (if c then decompress_gz http url else fetch_xml http url) s =
  (Return (Some root), requested url c s).
Proof.
  intros Hr. run_fetch. destruct c; cbn; rewrite Hr; reflexivity.
Qed.

(** Whatever the fetch comes to, it has issued its one request and done
    nothing else. *)
Lemma fetch_store http url (c : bool) s :
  snd ((if c then decompress_gz http url else fetch_xml http url) s) =
  requested url c s.
Proof.
  run_fetch.
  destruct c; cbn; destruct (http url) as [|code body]; cbn; auto;
    destruct (code =? 200)%Z; cbn; auto;
    destruct body as [root|inner|]; cbn; auto;
    destruct inner; reflexivity.
Qed.

(** A 200 with a document in the expected encoding: for a root with
    children the outcome is decided by [open]. *)
Lemma process_sitemap_document http url c root s :
  http url = Response 200 (body_of c root) ->
  process_sitemap http url c s =
  if falsy (Some root) then (Return ([], []), requested url c s)
  else match open_error (output_filename url) with
       | Some e => (Raise e, requested url c s)
       | None =>
           (Return (child_sitemaps (Some root), page_locations (Some root)),
            saved url (page_locations (Some root)) (requested url c s))
       end.
Proof.
  intros Hr. unfold process_sitemap, mbind, M_bind, bind.
  rewrite (fetch_document _ _ _ root) by exact Hr.
  destruct (falsy (Some root)); [reflexivity |].
  rewrite save_urls_cases.
  destruct (open_error (output_filename url)); reflexivity.
Qed.

(** Whatever is served, the pair returned for [served] urls is that of
    the document, and an empty pair for a failure. *)
Lemma process_sitemap_served http url root s :
  served http url root -> opens url ->
  exists s', process_sitemap http url (endswith url ".xml.gz") s =
             (Return (child_sitemaps root, page_locations root), s').
Proof.
  intros [code body Hr Hc | e Hr] Hopen.
  - eexists. now apply (process_sitemap_status _ _ _ code body).
  - rewrite (process_sitemap_document _ _ _ e) by exact Hr.
    unfold opens in Hopen. rewrite Hopen.
    rewrite falsy_Some. destruct (children e) eqn:E; eexists; [| reflexivity].
    cbn [child_sitemaps page_locations].
    now rewrite !findall_childless.
Qed.

(** ** What a computation may do to the store: it only appends. *)

Lemma extends_refl s : extends s s.
Proof. split; [| split]; exists []; now rewrite app_nil_r. Qed.

Lemma extends_trans s1 s2 s3 : extends s1 s2 -> extends s2 s3 -> extends s1 s3.
Proof.
  intros ([a1 Ha] & [b1 Hb] & [c1 Hc]) ([a2 Ha2] & [b2 Hb2] & [c2 Hc2]).
  split; [| split]; eexists.
  - rewrite Ha2, Ha, <- app_assoc. reflexivity.
  - rewrite Hb2, Hb, <- app_assoc. reflexivity.
  - rewrite Hc2, Hc, <- app_assoc. reflexivity.
Qed.

Lemma extends_requested url c s : extends s (requested url c s).
Proof.
  split; [| split]; cbn.
  - exists []. now rewrite app_nil_r.
  - eexists. reflexivity.
  - exists []. now rewrite app_nil_r.
Qed.

Lemma saved_cases url urls s :
  saved url urls s =
  match open_error (output_filename url) with
  | Some _ => s
  | None => {| submitted := submitted s;
               requests := requests s;
               written := written s ++
                          [(output_filename url,
                            "Source URL: " +:+ url +:+ LF +:+ url_lines urls)] |}
  end.
Proof.
  unfold saved, save_urls, write_file.
  destruct (open_error (output_filename url)); reflexivity.
Qed.

Lemma extends_saved url urls s : extends s (saved url urls s).
Proof.
  rewrite saved_cases.
  destruct (open_error (output_filename url)); [apply extends_refl |].
  split; [| split]; cbn.
  - exists []. now rewrite app_nil_r.
  - exists []. now rewrite app_nil_r.
  - eexists. reflexivity.
Qed.

(** One task issues exactly one request, on the path its flag selects,
    submits nothing and writes at most its own file. *)
Lemma process_sitemap_effects http url c s :
  let s' := snd (process_sitemap http url c s) in
  submitted s' = submitted s /\
  requests s' = requests s ++ [{| req_url := url; req_stream := c |}] /\
  (written s' = written s \/
   exists urls, written s' = written (saved url urls s)).
Proof.
  cbn zeta. unfold process_sitemap, mbind, M_bind, bind.
  pose proof (fetch_store http url c s) as Hs.
  destruct ((if c then decompress_gz http url else fetch_xml http url) s)
    as [r s1]. cbn in Hs. subst s1.
  destruct r as [root| |]; cbn [snd]; try (cbn; now auto).
  destruct (falsy root); [cbn; now auto |].
  destruct root as [root|]; [| cbn; now auto].
  rewrite save_urls_cases.
  destruct (open_error (output_filename url)) eqn:E; [cbn; now auto |].
  cbn [snd]. rewrite !saved_cases, E. cbn.
  split; [reflexivity | split; [reflexivity |]].
  right. exists (loc_texts (findall_descendants (sm "url") root)).
  now rewrite saved_cases, E.
Qed.

Lemma process_sitemap_extends http url c s :
  extends s (snd (process_sitemap http url c s)).
Proof.
  destruct (process_sitemap_effects http url c s) as (Hs & Hr & Hw).
  split; [| split].
  - exists []. now rewrite Hs, app_nil_r.
  - eexists. exact Hr.
  - destruct Hw as [Hw | [urls Hw]]; rewrite Hw.
    + exists []. now rewrite app_nil_r.
    + apply (extends_saved url urls s).
Qed.

Lemma url_lines_unlines (urls : list pytext) :
  url_lines urls = unlines (map fmt urls).
Proof. induction urls as [|u urls IH]; cbn; [reflexivity | now rewrite IH]. Qed.

Lemma saved_written url urls s :
  opens url ->
  written (saved url urls s) = written s ++ [per_source_file url urls].
Proof.
  intros H. unfold opens in H. rewrite saved_cases, H. cbn [written].
  unfold per_source_file. do 3 f_equal.
  cbn [unlines]. now rewrite url_lines_unlines, append_assoc.
Qed.

Lemma opens_sitemap_index : opens "sitemap_index".
Proof. reflexivity. Qed.

Lemma aggregate_file (A : gset pytext) :
  per_source_file "sitemap_index" (elements A) = aggregate A.
Proof. reflexivity. Qed.

Lemma extends_In_submitted s s' x :
  extends s s' -> In x (submitted s) -> In x (submitted s').
Proof. intros ([l ->] & _) H. apply in_or_app. now left. Qed.

Lemma extends_In_written s s' x :
  extends s s' -> In x (written s) -> In x (written s').
Proof. intros (_ & _ & [l ->]) H. apply in_or_app. now left. Qed.

(** ** The loop *)

Lemma submit_and_wait_Some http url s :
  submit_and_wait http (Some url) s =
  process_sitemap http url (endswith url ".xml.gz")
                  (snd (log_submit url (endswith url ".xml.gz") s)).
Proof. reflexivity. Qed.

Lemma submit_and_wait_extends http cur s :
  extends s (snd (submit_and_wait http cur s)).
Proof.
  destruct cur as [url|]; [| apply extends_refl].
  rewrite submit_and_wait_Some.
  eapply extends_trans; [| apply process_sitemap_extends].
  split; [| split]; cbn.
  - eexists. reflexivity.
  - exists []. now rewrite app_nil_r.
  - exists []. now rewrite app_nil_r.
Qed.

Lemma while_queue_step http fuel cur q A P s :
  while_queue http (S fuel) (cur :: q) A P s =
  match submit_and_wait http cur s with
  | (Return (sitemap_urls, page_urls), s') =>
      while_queue http fuel
                  (q ++ filter (fun url => url ∉ A) sitemap_urls)
                  (A ∪ list_to_set sitemap_urls)
                  (P ∪ list_to_set page_urls) s'
  | (Raise e, s') => (Raise e, s')
  | (OutOfFuel, s') => (OutOfFuel, s')
  end.
Proof.
  cbn [while_queue]. unfold_M.
  destruct (submit_and_wait http cur s) as [[[kids pages]| |] s']; reflexivity.
Qed.

Lemma while_queue_extends http fuel :
  forall q A P s, extends s (snd (while_queue http fuel q A P s)).
Proof.
  induction fuel as [|fuel IH]; intros [|cur q] A P s;
    try apply extends_refl.
  rewrite while_queue_step.
  pose proof (submit_and_wait_extends http cur s) as Hs.
  destruct (submit_and_wait http cur s) as [[[kids pages]| |] s']; cbn in Hs;
    try exact Hs.
  eapply extends_trans; [exact Hs | apply IH].
Qed.

(** Routing is an invariant of the task and of the loop. *)
Lemma submit_and_wait_routed http cur s :
  routed s -> routed (snd (submit_and_wait http cur s)).
Proof.
  intros [Hs Hr]. destruct cur as [url|]; [| now split].
  rewrite submit_and_wait_Some.
  destruct (process_sitemap_effects http url (endswith url ".xml.gz")
              (snd (log_submit url (endswith url ".xml.gz") s)))
    as (Es & Er & _).
  split.
  - rewrite Es. cbn. apply Forall_app. split; [exact Hs |].
    constructor; [reflexivity | constructor].
  - rewrite Er. cbn. apply Forall_app. split; [exact Hr |].
    constructor; [reflexivity | constructor].
Qed.

Lemma while_queue_routed http fuel :
  forall q A P s, routed s -> routed (snd (while_queue http fuel q A P s)).
Proof.
  induction fuel as [|fuel IH]; intros [|cur q] A P s Hs; try exact Hs.
  rewrite while_queue_step.
  pose proof (submit_and_wait_routed http cur s Hs) as Hs'.
  destruct (submit_and_wait http cur s) as [[[kids pages]| |] s']; cbn in Hs';
    try exact Hs'.
  now apply IH.
Qed.

(** Whatever is in the queue when the loop returns has been submitted,
    and saved if its document came back with entries. *)
Lemma while_queue_dispatches http fuel :
  forall q A P s r s',
    while_queue http fuel q A P s = (Return r, s') ->
    forall url, In (Some url) q ->
      In (url, endswith url ".xml.gz") (submitted s') /\
      (forall root, served http url (Some root) -> children root <> [] ->
         In (per_source_file url (page_locations (Some root))) (written s')).
Proof.
  induction fuel as [|fuel IH]; intros [|cur q] A P s r s' Hrun url Hin;
    try contradiction; try discriminate.
  rewrite while_queue_step in Hrun.
  destruct (submit_and_wait http cur s) as [[[kids pages]| |] s1] eqn:Hstep;
    try discriminate.
  pose proof (while_queue_extends http fuel
                (q ++ filter (fun url => url ∉ A) kids)
                (A ∪ list_to_set kids) (P ∪ list_to_set pages) s1) as Hext.
  rewrite Hrun in Hext. cbn in Hext.
  destruct Hin as [-> | Hin].
  - rewrite submit_and_wait_Some in Hstep. split.
    + apply (extends_In_submitted s1 s'); [exact Hext |].
      destruct (process_sitemap_effects http url (endswith url ".xml.gz")
                  (snd (log_submit url (endswith url ".xml.gz") s)))
        as (Es & _). rewrite Hstep in Es. cbn in Es. rewrite Es.
      apply in_or_app. right. now left.
    + intros root Hserved Hne. inversion Hserved as [| root' Hr]; subst.
      rewrite (process_sitemap_document _ _ _ root) in Hstep by exact Hr.
      rewrite falsy_Some in Hstep. destruct (children root) eqn:E; [contradiction |].
      destruct (open_error (output_filename url)) eqn:Hopen; [discriminate |].
      injection Hstep as _ _ <-.
      eapply extends_In_written; [exact Hext |].
      rewrite saved_written by exact Hopen. apply in_or_app. right. now left.
  - apply (IH _ _ _ _ _ _ Hrun). apply in_or_app. now left.
Qed.

(** ** Termination over a closed world *)

Lemma elem_of_as_set (universe : list string) (k : pytext) :
  k ∈ as_set universe <-> exists u, k = Some u /\ In u universe.
Proof.
  unfold as_set. rewrite elem_of_list_to_set, list_elem_of_In, in_map_iff.
  split; intros (u & H1 & H2); exists u; auto.
Qed.

(** Nothing new among the children: the dedup set stays as it is. *)
Lemma nothing_new (A : gset pytext) (kids : list pytext) :
  filter (fun url => url ∉ A) kids = [] -> A ∪ list_to_set kids = A.
Proof.
  intros Hnil. apply set_eq. intros k.
  rewrite elem_of_union, elem_of_list_to_set.
  split; [| auto]. intros [H | H]; [exact H |].
  destruct (decide (k ∈ A)) as [Hk | Hk]; [exact Hk |].
  exfalso. exact (filter_nil_not_elem_of _ _ k Hnil Hk H).
Qed.

(** Something new among the children: fewer urls of the universe remain
    outside the dedup set. *)
Lemma something_new (U A : gset pytext) (kids : list pytext) :
  (forall k, k ∈ kids -> k ∈ U) ->
  filter (fun url => url ∉ A) kids <> [] ->
  size (U ∖ (A ∪ list_to_set kids)) < size (U ∖ A).
Proof.
  intros HU Hnew. apply subset_size.
  destruct (filter (fun url => url ∉ A) kids) as [|k new] eqn:E;
    [contradiction |].
  assert (Hk : k ∈ filter (fun url => url ∉ A) kids) by (rewrite E; left).
  apply list_elem_of_filter in Hk as [HkA Hkk].
  specialize (HU k Hkk).
  assert (HkK : k ∈ (list_to_set kids : gset pytext))
    by now apply elem_of_list_to_set.
  split.
  - intros x Hx. apply elem_of_difference in Hx as [HxU HxN].
    apply elem_of_difference. split; [exact HxU |].
    intros HxA. apply HxN, elem_of_union. now left.
  - intros Hsub.
    assert (Hk : k ∈ U ∖ A) by now apply elem_of_difference.
    apply Hsub, elem_of_difference in Hk as [_ Hk].
    apply Hk, elem_of_union. now right.
Qed.

Section ClosedWorld.

Variable http : string -> reply.
Variable universe : list string.
Hypothesis closed : closed_world http universe.
Hypothesis savable : forall url, In url universe -> opens url.

(** A url of the universe: the task returns the lists of its document,
    and the children are in the universe. *)
Lemma task_returns (k : pytext) (s : store) :
  k ∈ as_set universe ->
  exists kids pages s',
    submit_and_wait http k s = (Return (kids, pages), s') /\
    forall k', k' ∈ kids -> k' ∈ as_set universe.
Proof.
  intros Hk. apply elem_of_as_set in Hk as (url & -> & Hin).
  destruct (closed url Hin) as (root & Hserved & Hkids).
  rewrite submit_and_wait_Some.
  destruct (process_sitemap_served http url root
              (snd (log_submit url (endswith url ".xml.gz") s)) Hserved
              (savable url Hin))
    as [s' Hs'].
  exists (child_sitemaps root), (page_locations root), s'.
  split; [exact Hs' |].
  intros k' Hk'. apply elem_of_as_set, Hkids. now apply list_elem_of_In.
Qed.

(** The loop ends: by induction on the number of urls of the universe
    still outside the dedup set, and then on the queue. *)
Lemma while_queue_terminates (m : nat) :
  forall q A P s,
    size (as_set universe ∖ A) <= m ->
    Forall (fun k => k ∈ as_set universe) q ->
    exists fuel A' P' s',
      forall extra,
        while_queue http (fuel + extra) q A P s = (Return (A', P'), s').
Proof.
  induction m as [m IHm] using lt_wf_ind.
  induction q as [|cur q IHq]; intros A P s Hm Hq.
  - exists 0, A, P, s. intros extra. destruct extra; reflexivity.
  - inversion Hq as [|? ? Hcur Hrest]; subst.
    destruct (task_returns cur s Hcur) as (kids & pages & s1 & Hstep & Hkids).
    destruct (filter (fun url => url ∉ A) kids) as [|k new] eqn:Hnew.
    + destruct (IHq (A ∪ list_to_set kids) (P ∪ list_to_set pages) s1)
        as (fuel & A' & P' & s' & Hrun).
      * now rewrite (nothing_new A kids Hnew).
      * exact Hrest.
      * exists (S fuel), A', P', s'. intros extra.
        cbn [Nat.add]. rewrite while_queue_step, Hstep, Hnew, app_nil_r.
        apply Hrun.
    + assert (Hlt : size (as_set universe ∖ (A ∪ list_to_set kids))
                    < size (as_set universe ∖ A)).
      { apply something_new; [exact Hkids | rewrite Hnew; discriminate]. }
      destruct (IHm (size (as_set universe ∖ (A ∪ list_to_set kids)))
                  ltac:(lia) (q ++ k :: new)
                  (A ∪ list_to_set kids) (P ∪ list_to_set pages) s1)
        as (fuel & A' & P' & s' & Hrun).
      * lia.
      * apply Forall_app. split; [exact Hrest |].
        apply Forall_forall. intros k' Hk'. apply Hkids.
        rewrite <- Hnew in Hk'.
        now apply list_elem_of_filter in Hk' as [_ ?].
      * exists (S fuel), A', P', s'. intros extra.
        cbn [Nat.add]. rewrite while_queue_step, Hstep, Hnew.
        apply Hrun.
Qed.

(** A whole run from seeds of the universe returns, and the last thing
    it does is to write the aggregate file. *)
Lemma run_returns (seeds : list string) (s : store) :
  incl seeds universe ->
  exists fuel A P s1,
    forall extra,
      while_queue http (fuel + extra) (map Some seeds) ∅ ∅ s = (Return (A, P), s1) /\
      process_all_sitemaps http (fuel + extra) seeds s =
      (Return (A, P), saved "sitemap_index" (elements A) s1).
Proof.
  intros Hseeds.
  destruct (while_queue_terminates (size (as_set universe ∖ ∅))
              (map Some seeds) ∅ ∅ s) as (fuel & A & P & s1 & Hrun).
  - lia.
  - apply Forall_forall. intros k Hk.
    apply list_elem_of_In, in_map_iff in Hk as (u & <- & Hu).
    apply elem_of_as_set. exists u. split; [reflexivity | now apply Hseeds].
  - exists fuel, A, P, s1. intros extra. split; [apply Hrun |].
    unfold process_all_sitemaps, mbind, M_bind, bind. rewrite Hrun.
    now rewrite (save_urls_returns _ _ _ opens_sitemap_index).
Qed.

End ClosedWorld.

(** ** Fuel *)

(** A run that ended, by returning or by raising, ends the same way with
    more fuel. *)
Lemma while_queue_more_fuel http fuel :
  forall q A P s r s',
    while_queue http fuel q A P s = (r, s') -> r <> OutOfFuel ->
    forall extra, while_queue http (fuel + extra) q A P s = (r, s').
Proof.
  induction fuel as [|fuel IH]; intros [|cur q] A P s r s' Hrun Hr extra.
  - destruct extra; exact Hrun.
  - cbn in Hrun. injection Hrun as <- _. contradiction.
  - exact Hrun.
  - cbn [Nat.add]. rewrite while_queue_step in *.
    destruct (submit_and_wait http cur s) as [[[kids pages]| |] s1];
      try exact Hrun.
    now apply IH.
Qed.

Lemma process_all_sitemaps_more_fuel http fuel seeds s r s' :
  process_all_sitemaps http fuel seeds s = (r, s') -> r <> OutOfFuel ->
  forall extra, process_all_sitemaps http (fuel + extra) seeds s = (r, s').
Proof.
  unfold process_all_sitemaps. unfold_M. intros Hrun Hr extra.
  destruct (while_queue http fuel (map Some seeds) ∅ ∅ s) as [r1 s1] eqn:E.
  assert (Hr1 : r1 <> OutOfFuel).
  { intros ->. injection Hrun as <- _. contradiction. }
  now rewrite (while_queue_more_fuel _ _ _ _ _ _ _ _ E Hr1).
Qed.

Lemma process_all_sitemaps_enough_fuel http fuel seeds s extra :
  ended (fst (process_all_sitemaps http fuel seeds s)) = true ->
  process_all_sitemaps http (fuel + extra) seeds s =
  process_all_sitemaps http fuel seeds s.
Proof.
  intros Hr.
  destruct (process_all_sitemaps http fuel seeds s) as [r s'] eqn:E.
  apply (process_all_sitemaps_more_fuel _ _ _ _ _ _ E).
  intros ->. discriminate.
Qed.

(** * The claims *)

(** C6.  With no seed urls [process_all_sitemaps] returns at once, for
    any server and any fuel: both sets are empty, no task is submitted,
    no request is made, nothing is raised; the only effect is the
    aggregate file with its header line. *)
Theorem empty_seeds_run (http : string -> reply) (fuel : nat) (s : store) :
  exists A P s',
    process_all_sitemaps http fuel [] s = (Return (A, P), s') /\
    size A = 0 /\ size P = 0 /\
    submitted s' = submitted s /\
    requests s' = requests s /\
    written s' = written s ++ [aggregate ∅].
Proof.
  exists ∅, ∅, (saved "sitemap_index" (elements (∅ : gset pytext)) s).
  split; [destruct fuel; reflexivity |].
  rewrite saved_written, aggregate_file by exact opens_sitemap_index.
  repeat split; apply size_empty.
Qed.

(** C7.  The route of a url is decided by its suffix alone.  One turn of
    the loop for [url] submits the task with the flag
    [url.endswith('.xml.gz')], and the task begins by calling
    [decompress_gz] when the flag holds and [fetch_xml] when it does not:
    what that call raises the turn raises, and what it returns is the
    root the turn goes on with.  [decompress_gz] issues a streamed
    request and parses the gunzipped body, [fetch_xml] issues a plain
    request and parses the body as it is.  Every task and request of a
    whole run is routed this way, whatever the server answers, and the
    flag holds exactly for the urls that end in [.xml.gz]. *)
Theorem routing_by_suffix (http : string -> reply) :
  (forall url s,
     let gz := endswith url ".xml.gz" in
     let fetched := (if gz then decompress_gz http url else fetch_xml http url)
                      (snd (log_submit url gz s)) in
     let turn := submit_and_wait http (Some url) s in
     submitted (snd turn) = submitted s ++ [(url, gz)] /\
     requests (snd turn) = requests s ++ [{| req_url := url; req_stream := gz |}] /\
     match fst fetched with
     | Return root =>
         if falsy root then turn = (Return ([], []), snd fetched)
         else turn =
              match save_urls url (page_locations root) (snd fetched) with
              | (Return _, s2) =>
                  (Return (child_sitemaps root, page_locations root), s2)
              | (Raise e, s2) => (Raise e, s2)
              | (OutOfFuel, s2) => (OutOfFuel, s2)
              end
     | Raise e => turn = (Raise e, snd fetched)
     | OutOfFuel => False
     end) /\
  (forall url s,
     decompress_gz http url s =
       (match http url with
        | Unreachable => Raise ConnectionError
        | Response code body =>
            if (code =? 200)%Z then
              match body with
              | Gzip (Xml root) => Return (Some root)
              | Gzip _ => Raise ParseError
              | _ => Raise BadGzipFile
              end
            else Return None
        end, requested url true s) /\
     fetch_xml http url s =
       (match http url with
        | Unreachable => Raise ConnectionError
        | Response code body =>
            if (code =? 200)%Z then
              match body with
              | Xml root => Return (Some root)
              | _ => Raise ParseError
              end
            else Return None
        end, requested url false s)) /\
  (forall fuel seeds,
     routed (snd (process_all_sitemaps http fuel seeds empty_store))) /\
  (forall url, endswith url ".xml.gz" = true <-> exists p, url = p +:+ ".xml.gz").
Proof.
  split; [| split; [| split]].
  - intros url s gz fetched turn. subst turn fetched.
    rewrite submit_and_wait_Some. fold gz.
    destruct (process_sitemap_effects http url gz (snd (log_submit url gz s)))
      as (Es & Er & _).
    split; [exact Es | split; [exact Er |]].
    unfold process_sitemap, mbind, M_bind, bind.
    destruct ((if gz then decompress_gz http url else fetch_xml http url)
                (snd (log_submit url gz s))) as [r s1] eqn:E.
    cbn [fst snd].
    destruct r as [root| |]; [| reflexivity |].
    + destruct (falsy root) eqn:F; [reflexivity |].
      destruct root as [root|]; [| discriminate].
      unfold mret, M_ret, ret. cbn [child_sitemaps page_locations].
      destruct (save_urls url (loc_texts (findall_descendants (sm "url") root)) s1)
        as [[[]| |] s2]; reflexivity.
    + revert E. run_fetch.
      destruct gz; cbn; destruct (http url) as [|code body]; cbn; try discriminate;
        destruct (code =? 200)%Z; cbn; try discriminate;
        destruct body as [root|inner|]; cbn; try discriminate;
        destruct inner; discriminate.
  - intros url s. run_fetch.
    split; cbn; destruct (http url) as [|code body]; cbn; auto;
      destruct (code =? 200)%Z; cbn; auto;
      destruct body as [root|inner|]; cbn; auto;
      destruct inner; reflexivity.
  - intros fuel seeds. unfold process_all_sitemaps, mbind, M_bind, bind.
    assert (H0 : routed empty_store) by (split; constructor).
    pose proof (while_queue_routed http fuel (map Some seeds) ∅ ∅ _ H0) as H.
    destruct (while_queue http fuel (map Some seeds) ∅ ∅ empty_store)
      as [[[A P]| |] s1]; exact H.
  - intros url. apply endswith_spec.
Qed.

(** C8.  When the fetch of a url brings back the document [root], the
    two lists [process_sitemap] returns are the locations of the
    [sm:sitemap] entries and of the [sm:url] entries of [root] in
    document order, with every repetition kept.  The lists are the same
    from every store, so a second parse of the same document gives them
    again; the only thing that can come between the parse and the return
    is [open] refusing the file of a root with children.  For a flat
    index or urlset the lists are the listed urls exactly as listed. *)
Theorem parse_in_document_order
        (http : string -> reply) (url : string) (is_compressed : bool)
        (root : element) :
  http url = Response 200 (body_of is_compressed root) ->
  (forall s,
     fst (process_sitemap http url is_compressed s) =
     match (if falsy (Some root) then None
            else open_error (output_filename url)) with
     | None => Return (locations_in_document_order "sitemap" root,
                       locations_in_document_order "url" root)
     | Some e => Raise e
     end) /\
  (forall us, locations_in_document_order "sitemap" (sitemapindex_of us) = us) /\
  (forall ps, locations_in_document_order "url" (urlset_of ps) = ps).
Proof.
  intros Hr. split; [| split].
  - intros s. rewrite (process_sitemap_document _ _ _ root) by exact Hr.
    rewrite falsy_Some. cbn [child_sitemaps page_locations].
    rewrite <- !loc_texts_document_order.
    destruct (children root) eqn:E.
    + now rewrite !findall_childless.
    + destruct (open_error (output_filename url)); reflexivity.
  - intros us. apply locations_sitemapindex.
  - intros ps. apply locations_urlset.
Qed.

Lemma parse_in_document_order_witness :
  let root := urlset_of [Some "https://example.com/b"; Some "https://example.com/c"] in
  example_site "https://example.com/sitemap2.xml" = Response 200 (body_of false root) /\
  ((forall s,
      fst (process_sitemap example_site "https://example.com/sitemap2.xml" false s) =
      match (if falsy (Some root) then None
             else open_error (output_filename "https://example.com/sitemap2.xml")) with
      | None => Return (locations_in_document_order "sitemap" root,
                        locations_in_document_order "url" root)
      | Some e => Raise e
      end) /\
   (forall us, locations_in_document_order "sitemap" (sitemapindex_of us) = us) /\
   (forall ps, locations_in_document_order "url" (urlset_of ps) = ps)).
Proof.
  intros root. split; [reflexivity |].
  apply (parse_in_document_order example_site
           "https://example.com/sitemap2.xml" false root).
  reflexivity.
Defined.

(** C10.  A status other than 200 makes [process_sitemap] return two
    empty lists without writing a file, on either path; a document
    without entries, once fetched and (when its root has children)
    saved, returns the same pair, so the caller cannot tell the two
    apart. *)
Theorem status_failure_looks_empty
        (http : string -> reply) (url : string) (is_compressed : bool)
        (code : Z) (body : payload) (s : store) :
  http url = Response code body -> code <> 200%Z ->
  let run := process_sitemap http url is_compressed s in
  fst run = Return ([], []) /\
  written (snd run) = written s /\
  (forall http' root s',
     http' url = Response 200 (body_of is_compressed root) ->
     locations_in_document_order "sitemap" root = [] ->
     locations_in_document_order "url" root = [] ->
     children root = [] \/ opens url ->
     fst (process_sitemap http' url is_compressed s') = fst run).
Proof.
  intros Hr Hc run. subst run.
  rewrite (process_sitemap_status _ _ _ code body) by assumption.
  split; [reflexivity | split; [reflexivity |]].
  intros http' root s' Hr' Hs Hp Hsave.
  rewrite (process_sitemap_document _ _ _ root) by exact Hr'.
  cbn [child_sitemaps page_locations].
  rewrite !loc_texts_document_order, Hs, Hp, falsy_Some.
  destruct Hsave as [-> | Hopen]; [reflexivity |].
  unfold opens in Hopen. rewrite Hopen.
  destruct (children root); reflexivity.
Qed.

Lemma status_failure_looks_empty_witness :
  let http := sibling_site "https://example.com/two.xml" (Response 503 Junk) in
  let url := "https://example.com/two.xml" in
  http url = Response 503 Junk /\ 503%Z <> 200%Z /\
  (let run := process_sitemap http url false empty_store in
   fst run = Return ([], []) /\
   written (snd run) = written empty_store /\
   (forall http' root s',
      http' url = Response 200 (body_of false root) ->
      locations_in_document_order "sitemap" root = [] ->
      locations_in_document_order "url" root = [] ->
      children root = [] \/ opens url ->
      fst (process_sitemap http' url false s') = fst run)).
Proof.
  intros http url. split; [reflexivity | split; [lia |]].
  apply (status_failure_looks_empty http url false 503 Junk empty_store);
    [reflexivity | lia].
Defined.

(** C5, as the code has it.  Over a finite universe of urls, each
    answered without an exception, each document listing child sitemaps
    of the universe only, and each with a file name that [open] accepts,
    a run from seeds of the universe ends: some amount of fuel, and any
    larger one, makes [process_all_sitemaps] return the two sets, and the
    last file written before it returns is the aggregate of the sitemap
    set. *)
Theorem run_terminates
        (http : string -> reply) (universe seeds : list string) (s : store) :
  closed_world http universe ->
  (forall url, In url universe -> opens url) ->
  incl seeds universe ->
  exists fuel A P s',
    (forall extra,
       process_all_sitemaps http (fuel + extra) seeds s = (Return (A, P), s')) /\
    exists before, written s' = before ++ [aggregate A].
Proof.
  intros Hclosed Hsavable Hseeds.
  destruct (run_returns http universe Hclosed Hsavable seeds s Hseeds)
    as (fuel & A & P & s1 & Hrun).
  exists fuel, A, P, (saved "sitemap_index" (elements A) s1).
  split; [intros extra; apply Hrun |].
  exists (written s1).
  now rewrite saved_written, aggregate_file by exact opens_sitemap_index.
Qed.

Lemma run_terminates_witness :
  closed_world example_site example_universe /\
  (forall url, In url example_universe -> opens url) /\
  incl ["https://example.com/sitemap_index.xml"] example_universe /\
  exists fuel A P s',
    (forall extra,
       process_all_sitemaps example_site (fuel + extra)
                            ["https://example.com/sitemap_index.xml"] empty_store =
       (Return (A, P), s')) /\
    exists before, written s' = before ++ [aggregate A].
Proof.
  assert (Hclosed : closed_world example_site example_universe).
  { intros url [<- | [<- | [<- | []]]].
    - eexists. split; [apply served_document; reflexivity |].
      intros k [<- | [<- | []]]; eexists; split; try reflexivity; cbn; auto.
    - eexists. split; [apply served_document; reflexivity |]. intros k [].
    - eexists. split; [apply served_document; reflexivity |]. intros k []. }
  assert (Hsavable : forall url, In url example_universe -> opens url).
  { intros url [<- | [<- | [<- | []]]]; reflexivity. }
  assert (Hseeds : incl ["https://example.com/sitemap_index.xml"] example_universe).
  { intros u [<- | []]. now left. }
  split; [exact Hclosed | split; [exact Hsavable | split; [exact Hseeds |]]].
  exact (run_terminates example_site example_universe
           ["https://example.com/sitemap_index.xml"] empty_store
           Hclosed Hsavable Hseeds).
Defined.

(** C5 as stated fails: a fixed, finite assignment of documents is not
    enough.  A single sitemap whose stem has 252 characters is fetched
    and parsed, but [open] refuses the 256-character name of its file:
    the run raises [OSError], the aggregate is never written and nothing
    is returned. *)
Lemma long_name_stops_the_run :
  closed_world long_name_site [long_url] /\
  process_all_sitemaps long_name_site 1 [long_url] empty_store =
  (Raise OSError,
   {| submitted := [(long_url, false)];
      requests := [{| req_url := long_url; req_stream := false |}];
      written := [] |}).
Proof.
  split; [| vm_compute; reflexivity].
  intros url [<- | []]. eexists.
  split; [apply served_document; reflexivity |]. intros k [].
Qed.

(** C2, as the code has it.  Only a failure that shows as a status other
    than 200 is absorbed.  Over a finite universe of urls, each answered
    with such a status or with a 200 and a document in the encoding its
    suffix announces, and each with a file name that [open] accepts, a
    run from seeds of the universe returns; every seed has been
    submitted, failed siblings or not, and the file of every seed whose
    document came back with entries has been written. *)
Theorem status_failure_is_isolated
        (http : string -> reply) (universe seeds : list string) :
  closed_world http universe ->
  (forall url, In url universe -> opens url) ->
  incl seeds universe ->
  exists fuel A P s',
    (forall extra,
       process_all_sitemaps http (fuel + extra) seeds empty_store =
       (Return (A, P), s')) /\
    forall url, In url seeds ->
      In (url, endswith url ".xml.gz") (submitted s') /\
      (forall root, served http url (Some root) -> children root <> [] ->
         In (per_source_file url (page_locations (Some root))) (written s')).
Proof.
  intros Hclosed Hsavable Hseeds.
  destruct (run_returns http universe Hclosed Hsavable seeds empty_store Hseeds)
    as (fuel & A & P & s1 & Hrun).
  exists fuel, A, P, (saved "sitemap_index" (elements A) s1).
  split; [intros extra; apply Hrun |].
  intros url Hin.
  destruct (Hrun 0) as [Hloop _].
  destruct (while_queue_dispatches http _ _ _ _ _ _ _ Hloop url
              (in_map Some _ _ Hin)) as [Hsub Hfile].
  split.
  - exact Hsub.
  - intros root Hserved Hne.
    eapply extends_In_written; [apply extends_saved | now apply Hfile].
Qed.

Lemma status_failure_is_isolated_witness :
  let http := sibling_site "https://example.com/two.xml" (Response 503 Junk) in
  closed_world http siblings /\
  (forall url, In url siblings -> opens url) /\
  incl siblings siblings /\
  exists fuel A P s',
    (forall extra,
       process_all_sitemaps http (fuel + extra) siblings empty_store =
       (Return (A, P), s')) /\
    forall url, In url siblings ->
      In (url, endswith url ".xml.gz") (submitted s') /\
      (forall root, served http url (Some root) -> children root <> [] ->
         In (per_source_file url (page_locations (Some root))) (written s')).
Proof.
  intros http.
  assert (Hclosed : closed_world http siblings).
  { intros url [<- | [<- | [<- | []]]].
    - eexists. split; [apply served_document; reflexivity |]. intros k [].
    - exists None. split; [| intros k []].
      apply (served_status _ _ 503 Junk); [reflexivity | lia].
    - eexists. split; [apply served_document; reflexivity |]. intros k []. }
  assert (Hsavable : forall url, In url siblings -> opens url).
  { intros url [<- | [<- | [<- | []]]]; reflexivity. }
  split; [exact Hclosed | split; [exact Hsavable | split; [apply incl_refl |]]].
  exact (status_failure_is_isolated http siblings siblings
           Hclosed Hsavable (incl_refl siblings)).
Defined.

(** C2 as stated fails: nothing in the module catches an exception.
    With three sibling seeds of which the middle one cannot be reached,
    or is answered with a body that is not XML, or (under a [.xml.gz]
    name) with a body that is not gzip, the run raises at the second
    task: the third sibling is never submitted, its file and the
    aggregate are never written, and no result is returned.  The same
    happens when the middle sibling is fetched and parsed but [open]
    refuses the name of its file. *)
Lemma broken_sibling_aborts_run :
  process_all_sitemaps (sibling_site "https://example.com/two.xml" Unreachable)
                       3 siblings empty_store =
  (Raise ConnectionError,
   {| submitted := [("https://example.com/one.xml", false);
                    ("https://example.com/two.xml", false)];
      requests := [{| req_url := "https://example.com/one.xml"; req_stream := false |};
                   {| req_url := "https://example.com/two.xml"; req_stream := false |}];
      written := [per_source_file "https://example.com/one.xml"
                                  [Some "https://example.com/1"]] |}) /\
  fst (process_all_sitemaps
         (sibling_site "https://example.com/two.xml" (Response 200 Junk))
         3 siblings empty_store) = Raise ParseError /\
  fst (process_all_sitemaps
         (sibling_site "https://example.com/two.xml.gz" (Response 200 Junk))
         3 siblings_gz empty_store) = Raise BadGzipFile /\
  process_all_sitemaps
    (sibling_site long_url (ok (urlset_of [Some "https://example.com/2"])))
    3 siblings_long empty_store =
  (Raise OSError,
   {| submitted := [("https://example.com/one.xml", false); (long_url, false)];
      requests := [{| req_url := "https://example.com/one.xml"; req_stream := false |};
                   {| req_url := long_url; req_stream := false |}];
      written := [per_source_file "https://example.com/one.xml"
                                  [Some "https://example.com/1"]] |}).
Proof. repeat split; vm_compute; reflexivity. Qed.

(** C9, as the code has it.  When the fetch brings back a document whose
    root has at least one child, and [open] accepts the name of its
    file, [process_sitemap] writes exactly one file.  With [stem] the
    last path segment of the url cut at its first dot, the file is
    [stem.txt], or [sitemap_urls.txt] when the stem is empty; its lines
    are the header [Source URL: url] and then the page locations of the
    document, in document order, repetitions kept. *)
Theorem per_source_artifact
        (http : string -> reply) (url : string) (is_compressed : bool)
        (root : element) (seg stem : string) (s : store) :
  http url = Response 200 (body_of is_compressed root) ->
  children root <> [] ->
  last_segment url seg ->
  without_extension seg stem ->
  open_error (if nonempty stem then stem +:+ ".txt" else "sitemap_urls.txt")
  = None ->
  written (snd (process_sitemap http url is_compressed s)) =
  written s ++
  [(if nonempty stem then stem +:+ ".txt" else "sitemap_urls.txt",
    unlines (("Source URL: " +:+ url)
               :: map fmt (locations_in_document_order "url" root)))].
Proof.
  intros Hr Hne Hseg Hstem Hopen.
  assert (Hname : output_filename url =
                  if nonempty stem then stem +:+ ".txt" else "sitemap_urls.txt").
  { unfold output_filename.
    now rewrite (last_segment_split _ _ Hseg), (without_extension_split _ _ Hstem). }
  rewrite <- Hname in Hopen.
  rewrite (process_sitemap_document _ _ _ root) by exact Hr.
  rewrite falsy_Some. destruct (children root) eqn:E; [contradiction |].
  rewrite Hopen. cbn [snd page_locations].
  rewrite saved_written by exact Hopen.
  unfold per_source_file. rewrite Hname.
  now rewrite loc_texts_document_order.
Qed.

Lemma per_source_artifact_witness :
  let url := "https://example.com/sitemap1.xml" in
  let root := urlset_of [Some "https://example.com/a"; Some "https://example.com/b"] in
  example_site url = Response 200 (body_of false root) /\
  children root <> [] /\
  last_segment url "sitemap1.xml" /\
  without_extension "sitemap1.xml" "sitemap1" /\
  open_error (if nonempty "sitemap1" then "sitemap1" +:+ ".txt"
              else "sitemap_urls.txt") = None /\
  written (snd (process_sitemap example_site url false empty_store)) =
  written empty_store ++
  [(if nonempty "sitemap1" then "sitemap1" +:+ ".txt" else "sitemap_urls.txt",
    unlines (("Source URL: " +:+ url)
               :: map fmt (locations_in_document_order "url" root)))].
Proof.
  intros url root.
  assert (H1 : example_site url = Response 200 (body_of false root))
    by reflexivity.
  assert (H2 : children root <> []) by discriminate.
  assert (H3 : last_segment url "sitemap1.xml").
  { split; [cbn; repeat split; discriminate |].
    right. exists "https://example.com". reflexivity. }
  assert (H4 : without_extension "sitemap1.xml" "sitemap1").
  { split; [cbn; repeat split; discriminate |].
    right. exists "xml". reflexivity. }
  assert (H5 : open_error (if nonempty "sitemap1" then "sitemap1" +:+ ".txt"
                           else "sitemap_urls.txt") = None) by reflexivity.
  repeat (split; [assumption |]).
  exact (per_source_artifact example_site url false root
           "sitemap1.xml" "sitemap1" empty_store H1 H2 H3 H4 H5).
Defined.

(** C9 as stated fails three times.  A urlset without entries is fetched
    with status 200 and parsed, yet [not root] holds for an element
    without children and no file is written.  A sitemap served under a
    url that ends in a slash has an empty last segment; its file is
    [sitemap_urls.txt], a name that owes nothing to the url.  And a
    sitemap whose stem has 252 characters is fetched and parsed, but
    [open] refuses the name of its file and [process_sitemap] raises
    [OSError] with nothing written. *)
Lemma artifact_missing_or_renamed :
  (empty_urlset_site "https://example.com/sitemap.xml" =
     Response 200 (Xml (urlset_of [])) /\
   process_sitemap empty_urlset_site "https://example.com/sitemap.xml" false
                   empty_store =
   (Return ([], []),
    {| submitted := [];
       requests := [{| req_url := "https://example.com/sitemap.xml";
                       req_stream := false |}];
       written := [] |})) /\
  (last_segment "https://example.com/sitemaps/" "" /\
   written (snd (process_sitemap directory_site "https://example.com/sitemaps/"
                                 false empty_store)) =
   [("sitemap_urls.txt",
     unlines ["Source URL: https://example.com/sitemaps/";
              "https://example.com/a"])]) /\
  (long_name_site long_url =
     Response 200 (Xml (urlset_of [Some "https://example.com/a"])) /\
   process_sitemap long_name_site long_url false empty_store =
   (Raise OSError,
    {| submitted := [];
       requests := [{| req_url := long_url; req_stream := false |}];
       written := [] |})).
Proof.
  split; [split; reflexivity |].
  split; [| split; vm_compute; reflexivity].
  split; [| reflexivity].
  split; [exact I |].
  right. exists "https://example.com/sitemaps". reflexivity.
Qed.

(** C1 fails on the code.  An index that lists the same child twice has
    the child submitted and fetched twice: three tasks for two distinct
    urls.  An index that lists itself is submitted a second time, since
    the seeds are never put into the dedup set. *)
Theorem duplicate_dispatch (extra : nat) :
  let seeds := ["https://example.com/index.xml"] in
  let twice := process_all_sitemaps twice_listed_site (3 + extra) seeds empty_store in
  let self := process_all_sitemaps self_listed_site (3 + extra) seeds empty_store in
  (returns (fst twice) (fun _ => True) /\
   submitted (snd twice) = [("https://example.com/index.xml", false);
                            ("https://example.com/pages.xml", false);
                            ("https://example.com/pages.xml", false)] /\
   length (requests (snd twice)) = 3 /\
   size (list_to_set (map fst (submitted (snd twice))) : gset string) = 2) /\
  (returns (fst self) (fun _ => True) /\
   submitted (snd self) = [("https://example.com/index.xml", false);
                           ("https://example.com/index.xml", false);
                           ("https://example.com/pages.xml", false)] /\
   length (requests (snd self)) = 3 /\
   size (list_to_set (map fst (submitted (snd self))) : gset string) = 2).
Proof.
  intros seeds twice self. subst twice self seeds.
  rewrite !process_all_sitemaps_enough_fuel by (vm_compute; reflexivity).
  split; (split; [vm_compute; exact I | split; [| split]]);
    vm_compute; reflexivity.
Qed.

(** C3 fails on the code.  In the end-to-end example the three sitemaps
    are fetched and the page set has the three pages, but the sitemap
    set holds the two children only: the seed is never put into it. *)
Theorem example_run_counts (extra : nat) :
  let seed := "https://example.com/sitemap_index.xml" in
  let run := process_all_sitemaps example_site (3 + extra) [seed] empty_store in
  returns (fst run)
          (fun '(A, P) =>
             size A = 2 /\ size P = 3 /\
             Permutation (elements A) [Some "https://example.com/sitemap1.xml";
                                       Some "https://example.com/sitemap2.xml"] /\
             Permutation (elements P) [Some "https://example.com/a";
                                       Some "https://example.com/b";
                                       Some "https://example.com/c"]) /\
  map fst (submitted (snd run)) = example_universe.
Proof.
  intros seed run. subst run seed.
  rewrite process_all_sitemaps_enough_fuel by (vm_compute; reflexivity).
  split; [| vm_compute; reflexivity].
  vm_compute. split; [reflexivity | split; [reflexivity | split]].
  - reflexivity.
  - apply Permutation_cons_append.
Qed.

(** C4 fails on the code.  In the same run the seed index is visited,
    and the aggregate file, written last, lists the two children and
    not the seed. *)
Theorem example_run_aggregate (extra : nat) :
  let seed := "https://example.com/sitemap_index.xml" in
  let run := process_all_sitemaps example_site (3 + extra) [seed] empty_store in
  In (seed, false) (submitted (snd run)) /\
  returns (fst run)
          (fun '(A, _) =>
             List.last (written (snd run)) ("", "") = aggregate A /\
             Permutation (elements A) [Some "https://example.com/sitemap1.xml";
                                       Some "https://example.com/sitemap2.xml"] /\
             ~ In (Some seed) (elements A)).
Proof.
  intros seed run. subst run seed.
  rewrite process_all_sitemaps_enough_fuel by (vm_compute; reflexivity).
  split; [vm_compute; now left |].
  vm_compute. split; [reflexivity | split; [reflexivity |]].
  intros [H | [H | []]]; discriminate.
Qed.

(** * Further properties of the module *)

(** ** Tasks, once more *)

(** The task, step by step: the fetch on the path of the flag, the test
    of the root, the save. *)
Lemma process_sitemap_steps http url (c : bool) s :
  process_sitemap http url c s =
  match (if c then decompress_gz http url else fetch_xml http url) s with
  | (Return root, s1) =>
      if falsy root then (Return ([], []), s1)
      else match open_error (output_filename url) with
           | Some e => (Raise e, s1)
           | None => (Return (child_sitemaps root, page_locations root),
                      saved url (page_locations root) s1)
           end
  | (Raise e, s1) => (Raise e, s1)
  | (OutOfFuel, s1) => (OutOfFuel, s1)
  end.
Proof.
  unfold process_sitemap, mbind, M_bind, bind.
  destruct ((if c then decompress_gz http url else fetch_xml http url) s)
    as [[root| |] s1]; try reflexivity.
  destruct (falsy root) eqn:F; [reflexivity |].
  destruct root as [root|]; [| discriminate].
  rewrite save_urls_cases. cbn [child_sitemaps page_locations].
  destruct (open_error (output_filename url)); reflexivity.
Qed.

(** What the fetch returns or raises does not depend on the store, and
    it is never cut short. *)
Lemma fetch_any_store http url (c : bool) s :
  fst ((if c then decompress_gz http url else fetch_xml http url) s) =
  fst ((if c then decompress_gz http url else fetch_xml http url) empty_store) /\
  fst ((if c then decompress_gz http url else fetch_xml http url) s) <> OutOfFuel.
Proof.
  run_fetch.
  destruct c; cbn; destruct (http url) as [|code body]; cbn; auto;
    try (split; [reflexivity | discriminate]);
    destruct (code =? 200)%Z; cbn;
    try (split; [reflexivity | discriminate]);
    destruct body as [root|inner|]; cbn;
    try (split; [reflexivity | discriminate]);
    destruct inner; cbn; split; (reflexivity || discriminate).
Qed.

(** The lists a task returns, or the exception it raises, do not depend
    on the store it starts from. *)
Lemma process_sitemap_any_store http url c s :
  fst (process_sitemap http url c s) =
  fst (process_sitemap http url c empty_store).
Proof.
  rewrite !process_sitemap_steps.
  destruct (fetch_any_store http url c s) as [H _].
  destruct ((if c then decompress_gz http url else fetch_xml http url) s)
    as [r s1].
  destruct ((if c then decompress_gz http url else fetch_xml http url) empty_store)
    as [r' s1'].
  cbn in H. subst r'.
  destruct r as [root| |]; try reflexivity.
  destruct (falsy root); [reflexivity |].
  destruct (open_error (output_filename url)); reflexivity.
Qed.

(** A task that returns has saved the pages it returns, or nothing. *)
Lemma process_sitemap_written http url c s kids pages s1 :
  process_sitemap http url c s = (Return (kids, pages), s1) ->
  written s1 = written s \/
  written s1 = written s ++ [per_source_file url pages].
Proof.
  rewrite process_sitemap_steps.
  pose proof (fetch_store http url c s) as Hs.
  destruct ((if c then decompress_gz http url else fetch_xml http url) s)
    as [r s0]. cbn in Hs. subst s0.
  destruct r as [root| |]; try discriminate.
  destruct (falsy root).
  - intros [= <- <- <-]. now left.
  - destruct (open_error (output_filename url)) eqn:E; [discriminate |].
    intros [= <- <- <-]. right.
    now rewrite saved_written by exact E.
Qed.

(** A task that raises has written nothing. *)
Lemma process_sitemap_raises http url c s e s1 :
  process_sitemap http url c s = (Raise e, s1) ->
  s1 = requested url c s.
Proof.
  rewrite process_sitemap_steps.
  pose proof (fetch_store http url c s) as Hs.
  destruct ((if c then decompress_gz http url else fetch_xml http url) s)
    as [r s0]. cbn in Hs. subst s0.
  destruct r as [root| |]; try discriminate.
  - destruct (falsy root); [discriminate |].
    destruct (open_error (output_filename url)); [| discriminate].
    now intros [= _ <-].
  - now intros [= _ <-].
Qed.

Lemma process_sitemap_in_fuel http url c s :
  fst (process_sitemap http url c s) <> OutOfFuel.
Proof.
  rewrite process_sitemap_steps.
  destruct (fetch_any_store http url c s) as [_ H].
  destruct ((if c then decompress_gz http url else fetch_xml http url) s)
    as [r s1].
  destruct r as [root| |]; cbn in *; try discriminate; [| contradiction].
  destruct (falsy root); [discriminate |].
  destruct (open_error (output_filename url)); discriminate.
Qed.

(** What one returning turn of the loop leaves behind. *)
Lemma submit_and_wait_returns http u s kids pages s1 :
  submit_and_wait http (Some u) s = (Return (kids, pages), s1) ->
  task_lists http u = Return (kids, pages) /\
  submitted s1 = submitted s ++ [(u, endswith u ".xml.gz")] /\
  (written s1 = written s \/
   written s1 = written s ++ [per_source_file u pages]).
Proof.
  rewrite submit_and_wait_Some. intros H.
  split; [| split].
  - unfold task_lists. rewrite <- (process_sitemap_any_store _ _ _
      (snd (log_submit u (endswith u ".xml.gz") s))). now rewrite H.
  - destruct (process_sitemap_effects http u (endswith u ".xml.gz")
                (snd (log_submit u (endswith u ".xml.gz") s))) as (Es & _).
    rewrite H in Es. exact Es.
  - exact (process_sitemap_written _ _ _ _ _ _ _ H).
Qed.

(** ** Induction on a run of the loop that returns *)

Lemma while_queue_returns_ind (http : string -> reply)
      (R : list pytext -> gset pytext -> gset pytext -> store ->
           gset pytext -> gset pytext -> store -> Prop) :
  (forall A P s, R [] A P s A P s) ->
  (forall u rest A P s kids pages s1 A' P' s',
     submit_and_wait http (Some u) s = (Return (kids, pages), s1) ->
     R (rest ++ filter (fun k => k ∉ A) kids)
       (A ∪ list_to_set kids) (P ∪ list_to_set pages) s1 A' P' s' ->
     R (Some u :: rest) A P s A' P' s') ->
  forall fuel q A P s A' P' s',
    while_queue http fuel q A P s = (Return (A', P'), s') ->
    R q A P s A' P' s'.
Proof.
  intros Hnil Hcons.
  induction fuel as [|fuel IH]; intros [|cur q] A P s A' P' s' Hrun;
    try discriminate.
  - injection Hrun as <- <- <-. apply Hnil.
  - injection Hrun as <- <- <-. apply Hnil.
  - rewrite while_queue_step in Hrun.
    destruct (submit_and_wait http cur s) as [[[kids pages]| |] s1] eqn:Hstep;
      try discriminate.
    destruct cur as [u|]; [| discriminate].
    eapply Hcons; [exact Hstep |]. now apply IH.
Qed.

Lemma process_all_sitemaps_returns http fuel seeds s A P s' :
  process_all_sitemaps http fuel seeds s = (Return (A, P), s') ->
  exists s1,
    while_queue http fuel (map Some seeds) ∅ ∅ s = (Return (A, P), s1) /\
    s' = saved "sitemap_index" (elements A) s1.
Proof.
  unfold process_all_sitemaps. unfold_M.
  destruct (while_queue http fuel (map Some seeds) ∅ ∅ s)
    as [[[A1 P1]| |] s1]; try discriminate.
  cbn. intros H. injection H as <- <- <-. now exists s1.
Qed.

(** ** What a returning run has done *)

(** The sets only grow; the tasks submitted are the queue, in its order,
    followed by what was discovered; and a url was submitted exactly when
    it was in the queue or entered the dedup set during the run. *)
Lemma while_queue_visits http fuel q A P s A' P' s' :
  while_queue http fuel q A P s = (Return (A', P'), s') ->
  A ⊆ A' /\
  exists new,
    submitted s' = submitted s ++ new /\
    Forall (fun task => snd task = endswith (fst task) ".xml.gz") new /\
    (exists later, map Some (map fst new) = q ++ later) /\
    (forall k, In k q \/ (k ∈ A' /\ k ∉ A) <->
               exists u, k = Some u /\ In u (map fst new)).
Proof.
  revert fuel q A P s A' P' s'.
  apply (while_queue_returns_ind http
           (fun q A P s A' P' s' =>
              A ⊆ A' /\
              exists new,
                submitted s' = submitted s ++ new /\
                Forall (fun task => snd task = endswith (fst task) ".xml.gz") new /\
                (exists later, map Some (map fst new) = q ++ later) /\
                (forall k, In k q \/ (k ∈ A' /\ k ∉ A) <->
                           exists u, k = Some u /\ In u (map fst new)))).
  - intros A P s. split; [reflexivity |]. exists []. rewrite app_nil_r.
    split; [reflexivity | split; [constructor | split; [now exists [] |]]].
    intros k. split.
    + intros [[] | [H1 H2]]. contradiction.
    + intros (u & _ & []).
  - intros u rest A P s kids pages s1 A' P' s' Hstep
           (Hsub & new & Hnew & Hflags & [later Hlater] & Hiff).
    destruct (submit_and_wait_returns _ _ _ _ _ _ Hstep) as (_ & Hs1 & _).
    assert (HA : A ⊆ A') by (etrans; [apply union_subseteq_l | exact Hsub]).
    split; [exact HA |].
    exists ((u, endswith u ".xml.gz") :: new).
    split; [now rewrite Hnew, Hs1, <- app_assoc |].
    split; [constructor; [reflexivity | exact Hflags] |].
    split.
    { exists (filter (fun k => k ∉ A) kids ++ later).
      cbn. rewrite Hlater, <- app_assoc. reflexivity. }
    intros k. split.
    + intros [[<- | Hin] | [Hk HkA]].
      * exists u. split; [reflexivity | now left].
      * destruct (proj1 (Hiff k)) as (v & -> & Hv).
        { left. apply in_or_app. now left. }
        exists v. split; [reflexivity | now right].
      * destruct (decide (k ∈ (list_to_set kids : gset pytext))) as [Hkids | Hkids].
        -- destruct (proj1 (Hiff k)) as (v & -> & Hv).
           { left. apply in_or_app. right. apply list_elem_of_In.
             apply list_elem_of_filter. split; [exact HkA |].
             now apply elem_of_list_to_set in Hkids. }
           exists v. split; [reflexivity | now right].
        -- destruct (proj1 (Hiff k)) as (v & -> & Hv).
           { right. split; [exact Hk |].
             intros [H | H]%elem_of_union; contradiction. }
           exists v. split; [reflexivity | now right].
    + intros (v & -> & [<- | Hv]).
      * left. now left.
      * destruct (proj2 (Hiff (Some v))) as [Hin | [Hv' HvA]].
        { exists v. now split. }
        -- apply in_app_or in Hin as [Hin | Hin].
           ++ left. now right.
           ++ right. apply list_elem_of_In, list_elem_of_filter in Hin as [HvA Hvk].
              split; [| exact HvA].
              apply Hsub, elem_of_union. right. now apply elem_of_list_to_set.
        -- right. split; [exact Hv' |].
           intros H. apply HvA, elem_of_union. now left.
Qed.

(** The two sets returned are the initial ones joined with the lists the
    submitted tasks returned. *)
Lemma while_queue_collects http fuel q A P s A' P' s' :
  while_queue http fuel q A P s = (Return (A', P'), s') ->
  exists new,
    submitted s' = submitted s ++ new /\
    (forall k, k ∈ A' <->
               k ∈ A \/ exists u kids pages,
                 In u (map fst new) /\
                 task_lists http u = Return (kids, pages) /\ In k kids) /\
    (forall p, p ∈ P' <->
               p ∈ P \/ exists u kids pages,
                 In u (map fst new) /\
                 task_lists http u = Return (kids, pages) /\ In p pages).
Proof.
  revert fuel q A P s A' P' s'.
  apply (while_queue_returns_ind http
           (fun q A P s A' P' s' =>
              exists new,
                submitted s' = submitted s ++ new /\
                (forall k, k ∈ A' <->
                           k ∈ A \/ exists u kids pages,
                             In u (map fst new) /\
                             task_lists http u = Return (kids, pages) /\ In k kids) /\
                (forall p, p ∈ P' <->
                           p ∈ P \/ exists u kids pages,
                             In u (map fst new) /\
                             task_lists http u = Return (kids, pages) /\ In p pages))).
  - intros A P s. exists []. rewrite app_nil_r.
    split; [reflexivity |].
    split; intros k; (split; [now left | intros [H | (u & ? & ? & [] & _)]; exact H]).
  - intros u rest A P s kids pages s1 A' P' s' Hstep (new & Hnew & HA & HP).
    destruct (submit_and_wait_returns _ _ _ _ _ _ Hstep) as (Htask & Hs1 & _).
    exists ((u, endswith u ".xml.gz") :: new).
    split; [now rewrite Hnew, Hs1, <- app_assoc |].
    split.
    + intros k. rewrite HA, elem_of_union, elem_of_list_to_set, list_elem_of_In.
      split.
      * intros [[H | H] | (v & ks & ps & Hv & Ht & Hk)].
        -- now left.
        -- right. exists u, kids, pages. split; [now left | now split].
        -- right. exists v, ks, ps. split; [now right | now split].
      * intros [H | (v & ks & ps & [Heq | Hv] & Ht & Hk)].
        -- left. now left.
        -- cbn in Heq. subst v. rewrite Htask in Ht.
           injection Ht as <- <-. left. now right.
        -- right. exists v, ks, ps. now split.
    + intros p. rewrite HP, elem_of_union, elem_of_list_to_set, list_elem_of_In.
      split.
      * intros [[H | H] | (v & ks & ps & Hv & Ht & Hk)].
        -- now left.
        -- right. exists u, kids, pages. split; [now left | now split].
        -- right. exists v, ks, ps. split; [now right | now split].
      * intros [H | (v & ks & ps & [Heq | Hv] & Ht & Hk)].
        -- left. now left.
        -- cbn in Heq. subst v. rewrite Htask in Ht.
           injection Ht as <- <-. left. now right.
        -- right. exists v, ks, ps. now split.
Qed.

(** The files of a returning loop are files of submitted tasks, at most
    one for each. *)
Lemma while_queue_files http fuel q A P s A' P' s' :
  while_queue http fuel q A P s = (Return (A', P'), s') ->
  exists new files,
    submitted s' = submitted s ++ new /\
    written s' = written s ++ files /\
    length files <= length new /\
    forall f, In f files ->
      exists u kids pages,
        In u (map fst new) /\
        task_lists http u = Return (kids, pages) /\
        f = per_source_file u pages.
Proof.
  revert fuel q A P s A' P' s'.
  apply (while_queue_returns_ind http
           (fun q A P s A' P' s' =>
              exists new files,
                submitted s' = submitted s ++ new /\
                written s' = written s ++ files /\
                length files <= length new /\
                forall f, In f files ->
                  exists u kids pages,
                    In u (map fst new) /\
                    task_lists http u = Return (kids, pages) /\
                    f = per_source_file u pages)).
  - intros A P s. exists [], []. rewrite !app_nil_r.
    repeat split; auto. intros f [].
  - intros u rest A P s kids pages s1 A' P' s' Hstep
           (new & files & Hnew & Hfiles & Hlen & Hall).
    destruct (submit_and_wait_returns _ _ _ _ _ _ Hstep) as (Htask & Hs1 & Hw).
    exists ((u, endswith u ".xml.gz") :: new).
    destruct Hw as [Hw | Hw].
    + exists files. rewrite Hnew, Hs1, Hfiles, Hw, <- app_assoc.
      split; [reflexivity | split; [reflexivity | split; [cbn; lia |]]].
      intros f Hf. destruct (Hall f Hf) as (v & ks & ps & Hv & Ht & ->).
      exists v, ks, ps. split; [now right | now split].
    + exists (per_source_file u pages :: files).
      rewrite Hnew, Hs1, Hfiles, Hw, <- !app_assoc.
      split; [reflexivity | split; [reflexivity | split; [cbn; lia |]]].
      intros f [<- | Hf].
      * exists u, kids, pages. split; [now left | now split].
      * destruct (Hall f Hf) as (v & ks & ps & Hv & Ht & ->).
        exists v, ks, ps. split; [now right | now split].
Qed.

Lemma saved_submitted url urls s : submitted (saved url urls s) = submitted s.
Proof.
  rewrite saved_cases. destruct (open_error (output_filename url)); reflexivity.
Qed.

Lemma saved_requests url urls s : requests (saved url urls s) = requests s.
Proof.
  rewrite saved_cases. destruct (open_error (output_filename url)); reflexivity.
Qed.

Lemma map_Some_inj (l1 l2 : list string) : map Some l1 = map Some l2 -> l1 = l2.
Proof.
  revert l2. induction l1 as [|a l1 IH]; intros [|b l2] H; try discriminate.
  - reflexivity.
  - injection H as -> H. f_equal. now apply IH.
Qed.

(** A run that is known to return, as an equation. *)
Lemma returned_run {A B : Type} (d : A * B) (x : outcome (A * B) * store) :
  is_return (fst x) = true ->
  x = (Return (fst (returned d (fst x)), snd (returned d (fst x))), snd x).
Proof. destruct x as [[[a b]| |] s]; cbn; try discriminate; reflexivity. Qed.

(** The last write to a file is its text. *)
Lemma file_text_last (log : list (string * string)) (name data : string) :
  file_text (log ++ [(name, data)]) name = Some data.
Proof.
  induction log as [|[n d] log IH]; cbn.
  - now rewrite String.eqb_refl.
  - now rewrite IH.
Qed.

(** Requests and tasks stay paired through a turn and through the loop,
    however they end. *)
Lemma submit_and_wait_paired http cur s :
  map (fun r => (req_url r, req_stream r)) (requests s) = submitted s ->
  let s' := snd (submit_and_wait http cur s) in
  map (fun r => (req_url r, req_stream r)) (requests s') = submitted s'.
Proof.
  intros Hs. destruct cur as [url|]; [| exact Hs].
  cbn zeta. rewrite submit_and_wait_Some.
  destruct (process_sitemap_effects http url (endswith url ".xml.gz")
              (snd (log_submit url (endswith url ".xml.gz") s)))
    as (Es & Er & _).
  rewrite Es, Er. cbn. rewrite map_app, Hs. reflexivity.
Qed.

Lemma while_queue_paired http fuel :
  forall q A P s,
    map (fun r => (req_url r, req_stream r)) (requests s) = submitted s ->
    let s' := snd (while_queue http fuel q A P s) in
    map (fun r => (req_url r, req_stream r)) (requests s') = submitted s'.
Proof.
  induction fuel as [|fuel IH]; intros [|cur q] A P s Hs; try exact Hs.
  cbn zeta. rewrite while_queue_step.
  pose proof (submit_and_wait_paired http cur s Hs) as Hs'.
  destruct (submit_and_wait http cur s) as [[[kids pages]| |] s1]; cbn in Hs';
    try exact Hs'.
  now apply IH.
Qed.

(** * Further theorems *)

(** X1.  One request per task and no retry: at the end of any run from an
    empty store, returned, raised or cut short, the requests issued are
    the tasks submitted, one for one and in the same order, each on the
    path of its task's flag. *)
Theorem one_request_per_task (http : string -> reply) (fuel : nat)
        (seeds : list string) :
  let s' := snd (process_all_sitemaps http fuel seeds empty_store) in
  map (fun r => (req_url r, req_stream r)) (requests s') = submitted s'.
Proof.
  cbn zeta. unfold process_all_sitemaps. unfold_M.
  pose proof (while_queue_paired http fuel (map Some seeds) ∅ ∅ empty_store
                eq_refl) as H.
  destruct (while_queue http fuel (map Some seeds) ∅ ∅ empty_store)
    as [[[A P]| |] s1]; exact H.
Qed.

(** X2.  When a run returns, the urls it submitted are exactly the seeds
    and the members of the returned sitemap set; [None] is not in that
    set. *)
Theorem visited_is_seeds_and_discovered
        (http : string -> reply) (fuel : nat) (seeds : list string)
        (A P : gset pytext) (s' : store) :
  process_all_sitemaps http fuel seeds empty_store = (Return (A, P), s') ->
  (forall u, In u (map fst (submitted s')) <-> In u seeds \/ Some u ∈ A) /\
  None ∉ A.
Proof.
  intros Hrun.
  destruct (process_all_sitemaps_returns _ _ _ _ _ _ _ Hrun) as (s1 & Hloop & ->).
  destruct (while_queue_visits _ _ _ _ _ _ _ _ _ Hloop)
    as (_ & new & Hnew & _ & _ & Hiff).
  rewrite saved_submitted, Hnew. cbn [submitted empty_store app].
  split.
  - intros u. split.
    + intros Hu. destruct (proj2 (Hiff (Some u))) as [Hin | [HA _]].
      * now exists u.
      * left. apply in_map_iff in Hin as (v & [= ->] & Hv). exact Hv.
      * now right.
    + intros [Hu | Hu].
      * destruct (proj1 (Hiff (Some u))) as (v & [= ->] & Hv); [| exact Hv].
        left. now apply in_map.
      * destruct (proj1 (Hiff (Some u))) as (v & [= ->] & Hv); [| exact Hv].
        right. split; [exact Hu | apply not_elem_of_empty].
  - intros HN. destruct (proj1 (Hiff None)) as (v & [=] & _).
    right. split; [exact HN | apply not_elem_of_empty].
Qed.

Lemma visited_is_seeds_and_discovered_witness :
  let seeds := ["https://example.com/sitemap_index.xml"] in
  let run := process_all_sitemaps example_site 3 seeds empty_store in
  let A := fst (returned (∅, ∅) (fst run)) in
  let P := snd (returned (∅, ∅) (fst run)) in
  run = (Return (A, P), snd run) /\
  ((forall u, In u (map fst (submitted (snd run))) <-> In u seeds \/ Some u ∈ A) /\
   None ∉ A).
Proof.
  intros seeds run A P.
  assert (Hrun : run = (Return (A, P), snd run)).
  { apply returned_run. vm_compute. reflexivity. }
  split; [exact Hrun |].
  exact (visited_is_seeds_and_discovered example_site 3 seeds A P (snd run) Hrun).
Defined.

(** X3.  When a run returns, the sitemap set is the union of the child
    lists returned by the submitted tasks and the page set the union of
    their page lists: nothing else enters either set, and nothing a task
    returned is lost. *)
Theorem returned_sets_collect_task_lists
        (http : string -> reply) (fuel : nat) (seeds : list string)
        (A P : gset pytext) (s' : store) :
  process_all_sitemaps http fuel seeds empty_store = (Return (A, P), s') ->
  (forall k, k ∈ A <->
             exists u kids pages,
               In u (map fst (submitted s')) /\
               task_lists http u = Return (kids, pages) /\ In k kids) /\
  (forall p, p ∈ P <->
             exists u kids pages,
               In u (map fst (submitted s')) /\
               task_lists http u = Return (kids, pages) /\ In p pages).
Proof.
  intros Hrun.
  destruct (process_all_sitemaps_returns _ _ _ _ _ _ _ Hrun) as (s1 & Hloop & ->).
  destruct (while_queue_collects _ _ _ _ _ _ _ _ _ Hloop) as (new & Hnew & HA & HP).
  rewrite saved_submitted, Hnew. cbn [submitted empty_store app].
  split; intros k; [rewrite HA | rewrite HP];
    (split; [intros [H | H]; [now apply not_elem_of_empty in H | exact H]
            | intros H; now right]).
Qed.

Lemma returned_sets_collect_task_lists_witness :
  let seeds := ["https://example.com/sitemap_index.xml"] in
  let run := process_all_sitemaps example_site 3 seeds empty_store in
  let A := fst (returned (∅, ∅) (fst run)) in
  let P := snd (returned (∅, ∅) (fst run)) in
  run = (Return (A, P), snd run) /\
  ((forall k, k ∈ A <->
              exists u kids pages,
                In u (map fst (submitted (snd run))) /\
                task_lists example_site u = Return (kids, pages) /\ In k kids) /\
   (forall p, p ∈ P <->
              exists u kids pages,
                In u (map fst (submitted (snd run))) /\
                task_lists example_site u = Return (kids, pages) /\ In p pages)).
Proof.
  intros seeds run A P.
  assert (Hrun : run = (Return (A, P), snd run)).
  { apply returned_run. vm_compute. reflexivity. }
  split; [exact Hrun |].
  exact (returned_sets_collect_task_lists example_site 3 seeds A P (snd run) Hrun).
Defined.

(** X4.  When a run returns, the files it wrote are at most one per
    submitted task, each the file of a submitted url with the pages its
    task returned, followed by the aggregate; whatever was saved before
    under the name [sitemap_index.txt], that file now holds the
    aggregate. *)
Theorem files_of_a_run
        (http : string -> reply) (fuel : nat) (seeds : list string)
        (A P : gset pytext) (s' : store) :
  process_all_sitemaps http fuel seeds empty_store = (Return (A, P), s') ->
  (exists files,
     written s' = files ++ [aggregate A] /\
     length files <= length (submitted s') /\
     forall f, In f files ->
       exists u kids pages,
         In u (map fst (submitted s')) /\
         task_lists http u = Return (kids, pages) /\
         f = per_source_file u pages) /\
  file_text (written s') "sitemap_index.txt" = Some (snd (aggregate A)).
Proof.
  intros Hrun.
  destruct (process_all_sitemaps_returns _ _ _ _ _ _ _ Hrun) as (s1 & Hloop & ->).
  destruct (while_queue_files _ _ _ _ _ _ _ _ _ Hloop)
    as (new & files & Hnew & Hfiles & Hlen & Hall).
  rewrite saved_submitted, (saved_written _ _ _ opens_sitemap_index),
    aggregate_file, Hnew, Hfiles.
  cbn [submitted written empty_store app].
  split.
  - exists files. split; [reflexivity | split; [exact Hlen | exact Hall]].
  - apply file_text_last.
Qed.

Lemma files_of_a_run_witness :
  let seeds := ["https://example.com/sitemap_index.xml"] in
  let run := process_all_sitemaps example_site 3 seeds empty_store in
  let A := fst (returned (∅, ∅) (fst run)) in
  let P := snd (returned (∅, ∅) (fst run)) in
  run = (Return (A, P), snd run) /\
  ((exists files,
      written (snd run) = files ++ [aggregate A] /\
      length files <= length (submitted (snd run)) /\
      forall f, In f files ->
        exists u kids pages,
          In u (map fst (submitted (snd run))) /\
          task_lists example_site u = Return (kids, pages) /\
          f = per_source_file u pages) /\
   file_text (written (snd run)) "sitemap_index.txt" = Some (snd (aggregate A))).
Proof.
  intros seeds run A P.
  assert (Hrun : run = (Return (A, P), snd run)).
  { apply returned_run. vm_compute. reflexivity. }
  split; [exact Hrun |].
  exact (files_of_a_run example_site 3 seeds A P (snd run) Hrun).
Defined.

Lemma run_submits_seeds_first
      (http : string -> reply) (fuel : nat) (seeds : list string)
      (A P : gset pytext) (s' : store) :
  process_all_sitemaps http fuel seeds empty_store = (Return (A, P), s') ->
  exists later,
    submitted s' =
    map (fun u => (u, endswith u ".xml.gz")) (seeds ++ later).
Proof.
  intros Hrun.
  destruct (process_all_sitemaps_returns _ _ _ _ _ _ _ Hrun) as (s1 & Hloop & ->).
  destruct (while_queue_visits _ _ _ _ _ _ _ _ _ Hloop)
    as (_ & new & Hnew & Hflags & [later Hlater] & _).
  rewrite saved_submitted, Hnew. cbn [submitted empty_store app].
  apply map_eq_app in Hlater as (l1 & l2 & Hsplit & H1 & H2).
  apply map_Some_inj in H1. subst l1.
  exists l2. rewrite <- Hsplit.
  clear -Hflags. induction Hflags as [|[u c] new Hu _ IH]; [reflexivity |].
  cbn in *. subst c. now rewrite IH at 1.
Qed.

(** X5.  First in, first out: when a run returns, the seeds were
    submitted first and in the order given, before any discovered
    sitemap, and every task carried the flag of its url's suffix. *)
Theorem seeds_are_submitted_first
        (http : string -> reply) (fuel : nat) (seeds : list string)
        (A P : gset pytext) (s' : store) :
  process_all_sitemaps http fuel seeds empty_store = (Return (A, P), s') ->
  exists later,
    submitted s' =
    map (fun u => (u, endswith u ".xml.gz")) (seeds ++ later).
Proof. apply run_submits_seeds_first. Qed.

Lemma seeds_are_submitted_first_witness :
  let seeds := ["https://example.com/sitemap_index.xml"] in
  let run := process_all_sitemaps example_site 3 seeds empty_store in
  let A := fst (returned (∅, ∅) (fst run)) in
  let P := snd (returned (∅, ∅) (fst run)) in
  run = (Return (A, P), snd run) /\
  exists later,
    submitted (snd run) =
    map (fun u => (u, endswith u ".xml.gz")) (seeds ++ later).
Proof.
  intros seeds run A P.
  assert (Hrun : run = (Return (A, P), snd run)).
  { apply returned_run. vm_compute. reflexivity. }
  split; [exact Hrun |].
  exact (seeds_are_submitted_first example_site 3 seeds A P (snd run) Hrun).
Defined.

(** X6.  Nothing is caught: when the task of the first seed raises, the
    run raises the same exception at once.  That one task and its one
    request are all that happened; no file is written, not even the
    aggregate, and the other seeds are never requested. *)
Theorem failing_first_task_aborts
        (http : string -> reply) (e : exn) (url : string)
        (rest : list string) (fuel : nat) :
  task_lists http url = Raise e ->
  process_all_sitemaps http (S fuel) (url :: rest) empty_store =
  (Raise e,
   {| submitted := [(url, endswith url ".xml.gz")];
      requests := [{| req_url := url; req_stream := endswith url ".xml.gz" |}];
      written := [] |}).
Proof.
  intros Htask. unfold process_all_sitemaps. unfold_M.
  cbn [map]. rewrite while_queue_step, submit_and_wait_Some.
  unfold task_lists in Htask.
  rewrite <- (process_sitemap_any_store _ _ _
                (snd (log_submit url (endswith url ".xml.gz") empty_store)))
    in Htask.
  destruct (process_sitemap http url (endswith url ".xml.gz")
              (snd (log_submit url (endswith url ".xml.gz") empty_store)))
    as [r s1] eqn:E.
  cbn in Htask. subst r.
  apply process_sitemap_raises in E. subst s1. reflexivity.
Qed.

Lemma failing_first_task_aborts_witness :
  let http := site [("https://example.com/one.xml", Response 200 Junk)] in
  task_lists http "https://example.com/one.xml" = Raise ParseError /\
  process_all_sitemaps http 3 siblings empty_store =
  (Raise ParseError,
   {| submitted := [("https://example.com/one.xml",
                     endswith "https://example.com/one.xml" ".xml.gz")];
      requests := [{| req_url := "https://example.com/one.xml";
                      req_stream := endswith "https://example.com/one.xml" ".xml.gz" |}];
      written := [] |}).
Proof.
  intros http. split; [reflexivity |].
  apply (failing_first_task_aborts http ParseError "https://example.com/one.xml"
           ["https://example.com/two.xml"; "https://example.com/three.xml"] 2).
  reflexivity.
Defined.

(** X7.  An index whose first [sitemap] entry has an empty [loc] brings
    the run down: [None] is queued like a url, and the next turn of the
    loop raises [AttributeError] on [None.endswith].  When [open]
    accepts the name of the index's file, the index itself has been
    fetched and saved by then; the aggregate is never written. *)
Theorem empty_loc_crashes_the_run
        (http : string -> reply) (url : string) (root : element)
        (others : list pytext) (fuel : nat) :
  http url = Response 200 (body_of (endswith url ".xml.gz") root) ->
  child_sitemaps (Some root) = None :: others ->
  opens url ->
  let run := process_all_sitemaps http (S (S fuel)) [url] empty_store in
  fst run = Raise AttributeError /\
  submitted (snd run) = [(url, endswith url ".xml.gz")] /\
  written (snd run) = [per_source_file url (page_locations (Some root))].
Proof.
  intros Hr Hkids Hopen run. subst run.
  unfold process_all_sitemaps, mbind, M_bind, bind. cbn [map].
  rewrite while_queue_step, submit_and_wait_Some.
  rewrite (process_sitemap_document _ _ _ root) by exact Hr.
  rewrite falsy_Some.
  destruct (children root) eqn:E.
  { cbn in Hkids. now rewrite findall_childless in Hkids. }
  pose proof Hopen as Hopen'. unfold opens in Hopen'. rewrite Hopen'.
  rewrite Hkids. rewrite filter_cons_True by apply not_elem_of_empty.
  cbn [app]. rewrite while_queue_step.
  change (submit_and_wait http None) with (@raise (list pytext * list pytext) AttributeError).
  unfold raise. cbn [fst snd].
  split; [reflexivity | split].
  - now rewrite saved_submitted.
  - now rewrite saved_written by exact Hopen.
Qed.

Lemma empty_loc_crashes_the_run_witness :
  let url := "https://example.com/index.xml" in
  let root := sitemapindex_of [None; Some "https://example.com/pages.xml"] in
  empty_loc_site url = Response 200 (body_of (endswith url ".xml.gz") root) /\
  child_sitemaps (Some root) = None :: [Some "https://example.com/pages.xml"] /\
  opens url /\
  (let run := process_all_sitemaps empty_loc_site 2 [url] empty_store in
   fst run = Raise AttributeError /\
   submitted (snd run) = [(url, endswith url ".xml.gz")] /\
   written (snd run) = [per_source_file url (page_locations (Some root))]).
Proof.
  intros url root.
  split; [reflexivity | split; [reflexivity | split; [reflexivity |]]].
  apply (empty_loc_crashes_the_run empty_loc_site url root
           [Some "https://example.com/pages.xml"] 0); reflexivity.
Defined.

(** X8.  The body is decoded by the name of the url, never by what it
    is: a gzipped document served under a name without [.xml.gz] raises
    [ParseError], a plain document served under a [.xml.gz] name raises
    [BadGzipFile]; either way nothing is saved. *)
Theorem wrong_encoding_raises
        (http : string -> reply) (url : string) (is_compressed : bool)
        (root : element) (s : store) :
  http url = Response 200 (body_of (negb is_compressed) root) ->
  process_sitemap http url is_compressed s =
  (Raise (if is_compressed then BadGzipFile else ParseError),
   requested url is_compressed s).
Proof.
  intros Hr. run_fetch.
  destruct is_compressed; cbn; rewrite Hr; reflexivity.
Qed.

Lemma wrong_encoding_raises_witness :
  let url := "https://example.com/sitemap.xml" in
  let root := urlset_of [Some "https://example.com/a"] in
  misnamed_site url = Response 200 (body_of (negb false) root) /\
  process_sitemap misnamed_site url false empty_store =
  (Raise (if false then BadGzipFile else ParseError),
   requested url false empty_store).
Proof.
  intros url root. split; [reflexivity |].
  apply (wrong_encoding_raises misnamed_site url false root empty_store).
  reflexivity.
Defined.

(** ** Pieces of a split *)

Lemma split_pieces_free (sep : ascii) (s : string) :
  Forall (free_of sep) (split sep s).
Proof.
  induction s as [|c s IH]; cbn.
  - constructor; [exact I | constructor].
  - destruct (Ascii.eqb c sep) eqn:E.
    + constructor; [exact I | exact IH].
    + apply Ascii.eqb_neq in E.
      destruct (split sep s) as [|w ws].
      * constructor; [now split | constructor].
      * inversion IH; subst. constructor; [now split | assumption].
Qed.




Lemma concat_cons (sep : ascii) (w : string) (ws : list string) :
  ws <> [] ->
  String.concat (String sep "") (w :: ws) =
  w +:+ String sep (String.concat (String sep "") ws).
Proof. destruct ws; [contradiction | reflexivity]. Qed.

(** X9.  [sep.join(s.split(sep))] is [s] again: a split loses nothing,
    never gives the empty list, and no piece holds the separator. *)
Theorem split_then_join (sep : ascii) (s : string) :
  String.concat (String sep "") (split sep s) = s /\
  split sep s <> [] /\
  Forall (free_of sep) (split sep s).
Proof.
  split; [| split; [apply split_nonempty | apply split_pieces_free]].
  induction s as [|c s IH]; [reflexivity |].
  cbn [split]. pose proof (split_nonempty sep s) as Hne.
  destruct (Ascii.eqb c sep) eqn:E.
  - apply Ascii.eqb_eq in E. subst c.
    rewrite concat_cons by exact Hne. now rewrite IH.
  - destruct (split sep s) as [|w ws]; [contradiction |].
    destruct ws as [|w' ws].
    + cbn in *. now rewrite IH.
    + rewrite concat_cons by discriminate.
      rewrite concat_cons in IH by discriminate.
      rewrite append_cons. now rewrite IH.
Qed.


Lemma output_filename_stem (url seg stem : string) :
  last_segment url seg -> without_extension seg stem ->
  output_filename url =
  if nonempty stem then stem +:+ ".txt" else "sitemap_urls.txt".
Proof.
  intros Hseg Hstem. unfold output_filename.
  now rewrite (last_segment_split _ _ Hseg), (without_extension_split _ _ Hstem).
Qed.

(** X11.  Two urls whose last path segments have the same stem are saved
    under the same name, and, when [open] accepts that name, the second
    save replaces the first: the file then holds the second url's header
    and lines only. *)
Theorem same_stem_overwrites
        (url1 url2 seg1 seg2 stem : string) (urls1 urls2 : list pytext)
        (s : store) :
  last_segment url1 seg1 -> without_extension seg1 stem ->
  last_segment url2 seg2 -> without_extension seg2 stem ->
  opens url1 ->
  let s' := snd (save_urls url2 urls2 (snd (save_urls url1 urls1 s))) in
  exists name,
    map fst (written s') = map fst (written s) ++ [name; name] /\
    file_text (written s') name =
    Some (unlines (("Source URL: " +:+ url2) :: map fmt urls2)).
Proof.
  intros Hs1 Hw1 Hs2 Hw2 Hopen1 s'. subst s'.
  change (snd (save_urls url2 urls2 (snd (save_urls url1 urls1 s))))
    with (saved url2 urls2 (saved url1 urls1 s)).
  pose proof (output_filename_stem _ _ _ Hs1 Hw1) as Hn1.
  pose proof (output_filename_stem _ _ _ Hs2 Hw2) as Hn2.
  assert (Hopen2 : opens url2).
  { unfold opens in *. now rewrite Hn2, <- Hn1. }
  rewrite !saved_written by assumption. unfold per_source_file.
  rewrite Hn1, Hn2.
  eexists. split.
  - rewrite <- app_assoc, map_app. reflexivity.
  - apply file_text_last.
Qed.

Lemma same_stem_overwrites_witness :
  let url1 := "https://a.example/sitemap.xml" in
  let url2 := "https://b.example/maps/sitemap.xml.gz" in
  last_segment url1 "sitemap.xml" /\ without_extension "sitemap.xml" "sitemap" /\
  last_segment url2 "sitemap.xml.gz" /\ without_extension "sitemap.xml.gz" "sitemap" /\
  opens url1 /\
  (let s' := snd (save_urls url2 [Some "https://b.example/2"]
                    (snd (save_urls url1 [Some "https://a.example/1"] empty_store))) in
   exists name,
     map fst (written s') = map fst (written empty_store) ++ [name; name] /\
     file_text (written s') name =
     Some (unlines (("Source URL: " +:+ url2) :: map fmt [Some "https://b.example/2"]))).
Proof.
  intros url1 url2.
  assert (H1 : last_segment url1 "sitemap.xml").
  { split; [cbn; repeat split; discriminate |].
    right. exists "https://a.example". reflexivity. }
  assert (H2 : without_extension "sitemap.xml" "sitemap").
  { split; [cbn; repeat split; discriminate |].
    right. exists "xml". reflexivity. }
  assert (H3 : last_segment url2 "sitemap.xml.gz").
  { split; [cbn; repeat split; discriminate |].
    right. exists "https://b.example/maps". reflexivity. }
  assert (H4 : without_extension "sitemap.xml.gz" "sitemap").
  { split; [cbn; repeat split; discriminate |].
    right. exists "xml.gz". reflexivity. }
  assert (H5 : opens url1) by reflexivity.
  repeat (split; [assumption |]).
  exact (same_stem_overwrites url1 url2 "sitemap.xml" "sitemap.xml.gz" "sitemap"
           [Some "https://a.example/1"] [Some "https://b.example/2"] empty_store
           H1 H2 H3 H4 H5).
Defined.

(** ** Stripping *)

Lemma rstrip_space (s : string) (c : ascii) :
  isspace c = true -> rstrip (s +:+ String c "") = rstrip s.
Proof.
  intros Hc. induction s as [|a s IH]; simpl_append; cbn.
  - now rewrite Hc.
  - now rewrite IH.
Qed.

Lemma strip_space (s : string) (c : ascii) :
  isspace c = true -> strip (s +:+ String c "") = strip s.
Proof.
  intros Hc. unfold strip. induction s as [|a s IH]; simpl_append; cbn.
  - now rewrite Hc.
  - destruct (isspace a); [exact IH |].
    change (String a (s +:+ String c "")) with (String a s +:+ String c "").
    now apply rstrip_space.
Qed.

Lemma rstrip_idem (s : string) : rstrip (rstrip s) = rstrip s.
Proof.
  induction s as [|c s IH]; [reflexivity |]. cbn.
  destruct (rstrip s) as [|k ks] eqn:E.
  - destruct (isspace c) eqn:Hc; cbn; [reflexivity | now rewrite Hc].
  - cbn. cbn in IH. now rewrite IH.
Qed.

Lemma lstrip_starts_clean (s : string) : starts_clean (lstrip s).
Proof.
  induction s as [|c s IH]; cbn; [exact I |].
  destruct (isspace c) eqn:Hc; [exact IH | exact Hc].
Qed.

Lemma rstrip_starts_clean (s : string) :
  starts_clean s -> starts_clean (rstrip s).
Proof.
  destruct s as [|c s]; cbn; [auto |]. intros Hc.
  destruct (rstrip s); [now rewrite Hc | exact Hc].
Qed.

Lemma lstrip_clean (s : string) : starts_clean s -> lstrip s = s.
Proof. destruct s as [|c s]; cbn; [auto | now intros ->]. Qed.

(** Stripping twice is stripping once. *)
Lemma strip_idem (s : string) : strip (strip s) = strip s.
Proof.
  unfold strip.
  rewrite (lstrip_clean (rstrip (lstrip s))).
  - apply rstrip_idem.
  - apply rstrip_starts_clean, lstrip_starts_clean.
Qed.

Lemma lstrip_free (c : ascii) (s : string) : free_of c s -> free_of c (lstrip s).
Proof.
  induction s as [|a s IH]; cbn; [auto |]. intros [Ha Hs].
  destruct (isspace a); [now apply IH | now split].
Qed.

Lemma rstrip_free (c : ascii) (s : string) : free_of c s -> free_of c (rstrip s).
Proof.
  induction s as [|a s IH]; cbn; [auto |]. intros [Ha Hs].
  specialize (IH Hs). destruct (rstrip s).
  - destruct (isspace a); cbn; auto.
  - now split.
Qed.

Lemma strip_free (c : ascii) (s : string) : free_of c s -> free_of c (strip s).
Proof. intros H. now apply rstrip_free, lstrip_free. Qed.

Lemma free_of_app (c : ascii) (a b : string) :
  free_of c (a +:+ b) <-> free_of c a /\ free_of c b.
Proof.
  induction a as [|x a IH]; simpl_append; cbn; [tauto |].
  rewrite IH. tauto.
Qed.

(** ** Lines of a text *)

Lemma translate_free_cons (s : string) :
  forall c, free_of CR (translate_newlines (String c s)) /\
            free_of CR (translate_newlines s).
Proof.
  induction s as [|a s IH]; intros c.
  - cbn. destruct (Ascii.eqb c CR) eqn:E; cbn.
    + split; [split; [discriminate | exact I] | exact I].
    + apply Ascii.eqb_neq in E. split; [split; [exact E | exact I] | exact I].
  - split; [| apply (IH a)].
    cbn [translate_newlines]. destruct (Ascii.eqb c CR) eqn:E.
    + destruct (Ascii.eqb a NL).
      * split; [discriminate | apply (IH a)].
      * split; [discriminate | apply (IH a)].
    + apply Ascii.eqb_neq in E. split; [exact E | apply (IH a)].
Qed.

Lemma translate_free (s : string) : free_of CR (translate_newlines s).
Proof. apply (translate_free_cons s NL). Qed.

(** A stretch without carriage return is read as it is. *)
Lemma translate_app (l rest : string) :
  free_of CR l ->
  translate_newlines (l +:+ rest) = l +:+ translate_newlines rest.
Proof.
  induction l as [|c l IH]; simpl_append; [reflexivity |].
  intros [Hc Hl]. cbn. apply Ascii.eqb_neq in Hc. rewrite Hc.
  now rewrite IH.
Qed.

Lemma file_lines_free (c : ascii) (s : string) :
  free_of c s -> Forall (free_of c) (file_lines s).
Proof.
  induction s as [|a s IH]; cbn; [constructor |]. intros [Ha Hs].
  specialize (IH Hs). destruct (Ascii.eqb a NL) eqn:E.
  - apply Ascii.eqb_eq in E. subst a.
    constructor; [now split | exact IH].
  - destruct (file_lines s) as [|l ls].
    + constructor; [now split | constructor].
    + inversion IH; subst. constructor; [now split | assumption].
Qed.

(** A line and its line feed come out as one line. *)
Lemma file_lines_app (l rest : string) :
  free_of NL l ->
  file_lines (l +:+ String NL rest) = (l +:+ String NL "") :: file_lines rest.
Proof.
  induction l as [|c l IH]; simpl_append; cbn.
  - intros _. reflexivity.
  - intros [Hc Hl]. apply Ascii.eqb_neq in Hc. rewrite Hc.
    now rewrite (IH Hl).
Qed.

Lemma file_lines_tail (l : string) :
  free_of NL l ->
  file_lines l = if nonempty l then [l] else [].
Proof.
  induction l as [|c l IH]; cbn; [reflexivity |].
  intros [Hc Hl]. apply Ascii.eqb_neq in Hc. rewrite Hc, (IH Hl).
  destruct l; reflexivity.
Qed.

(** Every line is a stretch without line feed, with or without one at
    its end. *)
Lemma file_lines_shape (s : string) :
  Forall (fun line => exists l, free_of NL l /\
                                (line = l \/ line = l +:+ String NL ""))
         (file_lines s).
Proof.
  induction s as [|c s IH]; cbn; [constructor |].
  destruct (Ascii.eqb c NL) eqn:E.
  - constructor; [| exact IH]. exists "". split; [exact I | now right].
  - apply Ascii.eqb_neq in E. destruct (file_lines s) as [|line lines].
    + constructor; [| constructor]. exists (String c "").
      split; [now split | now left].
    + inversion IH as [|? ? (l & Hl & Hline) Hrest]; subst.
      constructor; [| exact Hrest].
      exists (String c l). split; [now split |].
      destruct Hline as [-> | ->]; [now left | now right].
Qed.

Lemma isspace_NL : isspace NL = true.
Proof. reflexivity. Qed.

Lemma kept_lines_app (l1 l2 : list string) :
  kept_lines (l1 ++ l2) = kept_lines l1 ++ kept_lines l2.
Proof. apply flat_map_app. Qed.

Lemma kept_lines_cons_NL (l : string) (lines : list string) :
  kept_lines ((l +:+ String NL "") :: lines) = kept_lines (l :: lines).
Proof.
  unfold kept_lines. cbn [flat_map].
  now rewrite (strip_space l NL isspace_NL).
Qed.

(** A line feed in front adds a blank line, which is left out. *)
Lemma kept_lines_leading_NL (rest : string) :
  kept_lines (file_lines (translate_newlines (String NL rest))) =
  kept_lines (file_lines (translate_newlines rest)).
Proof. reflexivity. Qed.

(** What is read off a text given by its lines. *)
Lemma stripped_lines_text (lines : list (string * line_end)) (tail : string) :
  Forall (fun line => free_of NL (fst line) /\ free_of CR (fst line)) lines ->
  free_of NL tail -> free_of CR tail ->
  stripped_lines (text_of lines +:+ tail) =
  kept_lines (map fst lines ++ [tail]).
Proof.
  intros Hlines Htail1 Htail2. unfold stripped_lines.
  change (flat_map (fun line => if nonempty (strip line) then [strip line] else []))
    with kept_lines.
  induction Hlines as [|[l e] lines [Hl1 Hl2] _ IH].
  - cbn [text_of map app]. rewrite append_nil.
    rewrite <- (append_empty_r tail) at 1.
    rewrite translate_app by exact Htail2. cbn [translate_newlines].
    rewrite append_empty_r, file_lines_tail by exact Htail1.
    destruct tail; reflexivity.
  - cbn [fst] in Hl1, Hl2.
    cbn [text_of map app fst]. rewrite !append_assoc.
    rewrite translate_app by exact Hl2.
    assert (Hgoal : forall X,
               kept_lines (file_lines X) =
               kept_lines (map fst lines ++ [tail]) ->
               kept_lines (file_lines (l +:+ String NL X)) =
               kept_lines (l :: map fst lines ++ [tail])).
    { intros X HX. rewrite file_lines_app by exact Hl1.
      rewrite kept_lines_cons_NL.
      change (l :: file_lines X) with ([l] ++ file_lines X).
      change (l :: map fst lines ++ [tail]) with ([l] ++ (map fst lines ++ [tail])).
      now rewrite !(kept_lines_app [l]), HX. }
    destruct e; cbn [break_of]; simpl_append.
    + cbn [translate_newlines]. change (Ascii.eqb NL CR) with false.
      cbn iota. now apply Hgoal.
    + cbn. now apply Hgoal.
    + destruct (text_of lines +:+ tail) as [|c rest] eqn:E.
      * cbn. apply Hgoal. exact IH.
      * cbn [translate_newlines]. change (Ascii.eqb CR CR) with true. cbn iota.
        destruct (Ascii.eqb c NL) eqn:Ec.
        -- apply Ascii.eqb_eq in Ec. subst c. apply Hgoal.
           now rewrite <- kept_lines_leading_NL.
        -- now apply Hgoal.
Qed.

Lemma unlines_text_of (ls : list string) :
  unlines ls = text_of (map (fun l => (l, Unix)) ls).
Proof. induction ls as [|l ls IH]; cbn; [reflexivity | now rewrite IH]. Qed.

Lemma kept_lines_clean (ls : list string) :
  Forall clean ls -> kept_lines ls = ls.
Proof.
  induction 1 as [|l ls (Hne & Hstrip & _) _ IH]; [reflexivity |].
  unfold kept_lines in *. cbn [flat_map]. now rewrite Hstrip, Hne, IH.
Qed.

Lemma map_fmt_Some (urls : list string) : map fmt (map Some urls) = urls.
Proof. induction urls as [|u urls IH]; cbn; [reflexivity | now rewrite IH]. Qed.

(** X12.  The url file is read line by line, whether its lines end the
    Unix, the Windows or the old Mac way and whether or not the last one
    is ended: what is returned is each line stripped of surrounding
    white space, in order, the blank ones left out. *)
Theorem url_file_is_read_line_by_line
        (fs : string -> option string) (path : string)
        (lines : list (string * line_end)) (tail : string) :
  fs path = Some (text_of lines +:+ tail) ->
  Forall (fun line => free_of NL (fst line) /\ free_of CR (fst line)) lines ->
  free_of NL tail -> free_of CR tail ->
  read_urls_from_file fs path = Some (kept_lines (map fst lines ++ [tail])).
Proof.
  intros Hfs Hlines Ht1 Ht2. unfold read_urls_from_file. rewrite Hfs.
  now rewrite stripped_lines_text.
Qed.

Lemma url_file_is_read_line_by_line_witness :
  let lines := [("  https://example.com/a.xml ", Windows); ("", Unix);
                ("https://example.com/b.xml.gz", OldMac);
                (String "009" EmptyString, Unix)] in
  let tail := "https://example.com/c.xml" in
  example_fs "urls.txt" = Some (text_of lines +:+ tail) /\
  Forall (fun line => free_of NL (fst line) /\ free_of CR (fst line)) lines /\
  free_of NL tail /\ free_of CR tail /\
  read_urls_from_file example_fs "urls.txt" =
  Some (kept_lines (map fst lines ++ [tail])).
Proof.
  intros lines tail.
  assert (H1 : example_fs "urls.txt" = Some (text_of lines +:+ tail))
    by reflexivity.
  assert (H2 : Forall (fun line => free_of NL (fst line) /\ free_of CR (fst line))
                      lines).
  { repeat constructor; discriminate. }
  assert (H3 : free_of NL tail) by (cbn; repeat split; discriminate).
  assert (H4 : free_of CR tail) by (cbn; repeat split; discriminate).
  repeat (split; [assumption |]).
  exact (url_file_is_read_line_by_line example_fs "urls.txt" lines tail
           H1 H2 H3 H4).
Defined.

(** X13.  Every url read from a url file is clean: it is not empty, has
    no white space at either end, so that stripping it again changes
    nothing, and holds no line feed and no carriage return. *)
Theorem urls_read_are_clean
        (fs : string -> option string) (path : string) (urls : list string) :
  read_urls_from_file fs path = Some urls -> Forall clean urls.
Proof.
  unfold read_urls_from_file. destruct (fs path) as [data|]; [| discriminate].
  intros [= <-]. unfold stripped_lines.
  pose proof (file_lines_shape (translate_newlines data)) as Hshape.
  pose proof (file_lines_free CR _ (translate_free data)) as Hfree.
  induction (file_lines (translate_newlines data)) as [|line lines IH];
    [constructor |].
  inversion Hshape as [|? ? (l & Hl & Hline) Hshape']; subst.
  inversion Hfree as [|? ? Hcr Hfree']; subst.
  cbn [flat_map]. specialize (IH Hshape' Hfree').
  destruct (nonempty (strip line)) eqn:Hne; [| exact IH].
  constructor; [| exact IH].
  split; [exact Hne | split; [apply strip_idem | split]].
  - destruct Hline as [-> | ->].
    + now apply strip_free.
    + rewrite (strip_space l NL isspace_NL). now apply strip_free.
  - now apply strip_free.
Qed.

Lemma urls_read_are_clean_witness :
  read_urls_from_file example_fs "urls.txt" =
  Some ["https://example.com/a.xml"; "https://example.com/b.xml.gz";
        "https://example.com/c.xml"] /\
  Forall clean ["https://example.com/a.xml"; "https://example.com/b.xml.gz";
                "https://example.com/c.xml"].
Proof.
  assert (H : read_urls_from_file example_fs "urls.txt" =
              Some ["https://example.com/a.xml"; "https://example.com/b.xml.gz";
                    "https://example.com/c.xml"]) by reflexivity.
  split; [exact H |].
  exact (urls_read_are_clean example_fs "urls.txt" _ H).
Defined.

(** X14.  A file written by [save_urls] and given back as a url file
    reads as the header line followed by the urls: when the save
    returned and the urls and the header are clean, nothing of the list
    is lost or reordered, and the header [Source URL: ...] comes back as
    if it were a url. *)
Theorem saved_file_reads_back
        (url : string) (urls : list string) (s : store) :
  clean ("Source URL: " +:+ url) ->
  Forall clean urls ->
  fst (save_urls url (map Some urls) s) = Return tt ->
  let s' := snd (save_urls url (map Some urls) s) in
  exists name,
    map fst (written s') = map fst (written s) ++ [name] /\
    read_urls_from_file (file_text (written s')) name =
    Some (("Source URL: " +:+ url) :: urls).
Proof.
  intros Hheader Hurls Hsaved s'. subst s'.
  assert (Hopen : opens url).
  { rewrite save_urls_cases in Hsaved. unfold opens.
    destruct (open_error (output_filename url)); [discriminate | reflexivity]. }
  change (snd (save_urls url (map Some urls) s))
    with (saved url (map Some urls) s).
  rewrite saved_written by exact Hopen. unfold per_source_file.
  eexists. split; [now rewrite map_app |].
  unfold read_urls_from_file. rewrite file_text_last.
  rewrite map_fmt_Some, unlines_text_of.
  rewrite <- (append_empty_r (text_of _)).
  rewrite stripped_lines_text.
  - rewrite map_map. cbn [fst]. rewrite map_id.
    rewrite kept_lines_app, kept_lines_clean by (constructor; assumption).
    cbn. now rewrite app_nil_r.
  - apply Forall_map. cbn [fst].
    assert (Hall : Forall clean (("Source URL: " +:+ url) :: urls))
      by (constructor; assumption).
    clear -Hall. induction Hall as [|l ls (_ & _ & H1 & H2) _ IH];
      constructor; [now split | exact IH].
  - exact I.
  - exact I.
Qed.

Lemma saved_file_reads_back_witness :
  let url := "https://example.com/sitemap1.xml" in
  let urls := ["https://example.com/a"; "https://example.com/b"] in
  clean ("Source URL: " +:+ url) /\
  Forall clean urls /\
  fst (save_urls url (map Some urls) empty_store) = Return tt /\
  (let s' := snd (save_urls url (map Some urls) empty_store) in
   exists name,
     map fst (written s') = map fst (written empty_store) ++ [name] /\
     read_urls_from_file (file_text (written s')) name =
     Some (("Source URL: " +:+ url) :: urls)).
Proof.
  intros url urls.
  assert (H1 : clean ("Source URL: " +:+ url)).
  { split; [reflexivity | split; [reflexivity |]].
    split; cbn; repeat split; discriminate. }
  assert (H2 : Forall clean urls).
  { repeat constructor; try reflexivity; discriminate. }
  assert (H3 : fst (save_urls url (map Some urls) empty_store) = Return tt)
    by reflexivity.
  split; [exact H1 | split; [exact H2 | split; [exact H3 |]]].
  exact (saved_file_reads_back url urls empty_store H1 H2 H3).
Defined.

(** ** Suffixes *)





(** X16.  When the script is given no directory, or one in which
    nothing is found, and completes with a returned result, the tasks it
    submitted begin with the url argument if one was given, go on with
    the urls of the url file in the order of its lines, and only then
    come to the sitemaps discovered. *)
Theorem script_submits_sources_in_order
        (fs : string -> option string) (glob : string -> list string)
        (http : string -> reply) (fuel : nat) (a : args)
        (A P : gset pytext) (s' : store) :
  match given (args_directory a) with
  | Some directory => find_xml_files_in_directory glob directory
  | None => []
  end = [] ->
  main fs glob http fuel a empty_store = (Completed (Return (A, P)), s') ->
  exists from_file later,
    match given (args_file a) with
    | Some file => read_urls_from_file fs file = Some from_file
    | None => from_file = []
    end /\
    map fst (submitted s') =
    match given (args_url a) with Some url => [url] | None => [] end ++
    from_file ++ later.
Proof.
  unfold main, urls_to_process. intros Hdir Hmain. rewrite Hdir in Hmain.
  set (from_url := match given (args_url a) with Some url => [url] | None => [] end) in *.
  assert (Hfile : exists from_file,
             match given (args_file a) with
             | Some file => read_urls_from_file fs file
             | None => Some []
             end = Some from_file /\
             match given (args_file a) with
             | Some file => read_urls_from_file fs file = Some from_file
             | None => from_file = []
             end).
  { destruct (given (args_file a)) as [file|].
    - destruct (read_urls_from_file fs file) as [l|]; [| discriminate].
      now exists l.
    - now exists []. }
  destruct Hfile as (from_file & Heq & Hfile). rewrite Heq in Hmain.
  exists from_file. rewrite app_nil_r in Hmain.
  destruct (from_url ++ from_file) as [|u urls] eqn:Hurls; [discriminate |].
  destruct (process_all_sitemaps http fuel (u :: urls) empty_store)
    as [r s1] eqn:Hrun.
  injection Hmain as -> ->.
  destruct (run_submits_seeds_first _ _ _ _ _ _ Hrun) as [later Hlater].
  exists later. split; [exact Hfile |].
  rewrite Hlater, map_map. cbn [fst]. rewrite map_id, <- Hurls.
  now rewrite <- !app_assoc.
Qed.

Lemma script_submits_sources_in_order_witness :
  let run := main example_fs example_glob open_site 20 example_args empty_store in
  let result := match fst run with
                | Completed r => returned (∅, ∅) r
                | _ => (∅, ∅)
                end in
  match given (args_directory example_args) with
  | Some directory => find_xml_files_in_directory example_glob directory
  | None => []
  end = [] /\
  run = (Completed (Return (fst result, snd result)), snd run) /\
  exists from_file later,
    match given (args_file example_args) with
    | Some file => read_urls_from_file example_fs file = Some from_file
    | None => from_file = []
    end /\
    map fst (submitted (snd run)) =
    match given (args_url example_args) with Some url => [url] | None => [] end ++
    from_file ++ later.
Proof.
  intros run result.
  assert (Hok : match fst run with
                | Completed r => is_return r
                | _ => false
                end = true) by (vm_compute; reflexivity).
  assert (Hrun : run = (Completed (Return (fst result, snd result)), snd run)).
  { subst result. destruct run as [[| |[[A P]| |]] s]; cbn in *;
      try discriminate; reflexivity. }
  split; [reflexivity | split; [exact Hrun |]].
  exact (script_submits_sources_in_order example_fs example_glob open_site 20
           example_args _ _ _ eq_refl Hrun).
Defined.

(** ** A run without end *)

(** A task on any store returns what [task_lists] says. *)
Lemma task_lists_run http url kids pages s :
  task_lists http url = Return (kids, pages) ->
  exists s',
    process_sitemap http url (endswith url ".xml.gz") s =
    (Return (kids, pages), s').
Proof.
  unfold task_lists. rewrite <- (process_sitemap_any_store _ _ _ s).
  destruct (process_sitemap http url (endswith url ".xml.gz") s) as [r s'].
  cbn. intros ->. now exists s'.
Qed.

Section Chain.

Variable http : string -> reply.
Variable next : string -> string.
Variable seed : string.
Hypothesis longer : forall u, String.length u < String.length (next u).
Hypothesis chained :
  forall n, exists pages,
    task_lists http (Nat.iter n next seed) =
    Return ([Some (next (Nat.iter n next seed))], pages).

(** With every member of the dedup set no longer than the url in the
    queue, the loop uses up any fuel, one task a turn. *)
Lemma chain_loop (fuel : nat) :
  forall n A P s,
    (forall k, k ∈ A ->
       exists v, k = Some v /\
                 String.length v <= String.length (Nat.iter n next seed)) ->
    let run := while_queue http fuel [Some (Nat.iter n next seed)] A P s in
    fst run = OutOfFuel /\
    length (submitted (snd run)) = length (submitted s) + fuel.
Proof.
  induction fuel as [|fuel IH]; intros n A P s HA;
    [cbn; split; [reflexivity | lia] |].
  cbn zeta. specialize (IH (S n)).
  change (Nat.iter (S n) next seed) with (next (Nat.iter n next seed)) in IH.
  destruct (chained n) as [pages Htask].
  pose proof (longer (Nat.iter n next seed)) as Hlonger.
  generalize dependent (Nat.iter n next seed). intros url IH HA Htask Hlonger.
  rewrite while_queue_step, submit_and_wait_Some.
  destruct (task_lists_run _ _ _ _
              (snd (log_submit url (endswith url ".xml.gz") s)) Htask)
    as [s1 E].
  destruct (process_sitemap_effects http url (endswith url ".xml.gz")
              (snd (log_submit url (endswith url ".xml.gz") s))) as (Es & _).
  rewrite E in Es. cbn in Es. rewrite E.
  assert (Hnew : Some (next url) ∉ A).
  { intros Hin. destruct (HA _ Hin) as (v & [= <-] & Hlen). lia. }
  rewrite filter_cons_True by exact Hnew.
  rewrite filter_nil. cbn [app].
  destruct (IH (A ∪ list_to_set [Some (next url)])
               (P ∪ list_to_set pages) s1) as [H1 H2].
  - intros k [Hk | Hk]%elem_of_union.
    + destruct (HA k Hk) as (v & -> & Hlen). exists v.
      split; [reflexivity | lia].
    + apply elem_of_list_to_set, list_elem_of_In in Hk as [<- | []].
      exists (next url). split; [reflexivity | lia].
  - split; [exact H1 |]. rewrite H2, Es, length_app. cbn. lia.
Qed.

End Chain.

(** X17.  The loop has no bound of its own.  On a server where every
    sitemap reached from the seed is fetched and saved and lists one
    child with a longer url, the run is still going after any number of
    turns: it has not returned and has not raised, and it has submitted
    one task for every turn it was given. *)
Theorem chain_never_ends
        (http : string -> reply) (next : string -> string)
        (seed : string) (fuel : nat) :
  (forall u, String.length u < String.length (next u)) ->
  (forall n, exists pages,
      task_lists http (Nat.iter n next seed) =
      Return ([Some (next (Nat.iter n next seed))], pages)) ->
  let run := process_all_sitemaps http fuel [seed] empty_store in
  fst run = OutOfFuel /\ length (submitted (snd run)) = fuel.
Proof.
  intros Hlonger Hchained. cbn zeta.
  unfold process_all_sitemaps, mbind, M_bind, bind. cbn [map].
  destruct (chain_loop http next seed Hlonger Hchained fuel 0 ∅ ∅ empty_store)
    as [H1 H2].
  { intros k Hk. now apply not_elem_of_empty in Hk. }
  cbn zeta in H1, H2. cbn [Nat.iter nat_rect] in H1, H2.
  destruct (while_queue http fuel [Some seed] ∅ ∅ empty_store)
    as [[[A P]| |] s1]; cbn in H1; try discriminate.
  split; [reflexivity | exact H2].
Qed.

Lemma chain_never_ends_witness :
  let next := fun u => u +:+ "/s" in
  let seed := "https://example.com/s" in
  (forall u, String.length u < String.length (next u)) /\
  (forall n, exists pages,
      task_lists deepening_site (Nat.iter n next seed) =
      Return ([Some (next (Nat.iter n next seed))], pages)) /\
  (let run := process_all_sitemaps deepening_site 300 [seed] empty_store in
   fst run = OutOfFuel /\ length (submitted (snd run)) = 300).
Proof.
  intros next seed.
  assert (H1 : forall u, String.length u < String.length (next u)).
  { intros u. unfold next. rewrite length_append. cbn. lia. }
  assert (Hopen : forall n, opens (Nat.iter n next seed)).
  { intros [|n]; [reflexivity |]. cbn [Nat.iter nat_rect].
    unfold opens, output_filename, next.
    change (Nat.iter n (fun u => u +:+ "/s") seed +:+ "/s")
      with (Nat.iter n (fun u => u +:+ "/s") seed +:+ String "/" "s").
    rewrite split_last by (cbn; repeat split; discriminate).
    reflexivity. }
  assert (H2 : forall n, exists pages,
               task_lists deepening_site (Nat.iter n next seed) =
               Return ([Some (next (Nat.iter n next seed))], pages)).
  { intros n. exists []. unfold task_lists.
    rewrite (process_sitemap_document _ _ _
               (sitemapindex_of [Some (Nat.iter n next seed +:+ "/s")]))
      by reflexivity.
    pose proof (Hopen n) as Ho. unfold opens in Ho. rewrite Ho.
    reflexivity. }
  split; [exact H1 | split; [exact H2 |]].
  exact (chain_never_ends deepening_site next seed 300 H1 H2).
Defined.
